(** * Automations extension for zigbee2mqtt: a shallow embedding

    The development follows the two variants of the extension that the
    repository ships:

    - [V2], the variant with conditions, delayed firing ([for]) and the
      three-valued trigger result ([dist/automations-extension-2.yaml]);
    - [V1], the original variant ([src/automations-extension.ts]).

    JavaScript objects used as dictionaries are finite maps ([gmap]); an
    absent property is [None].  Numbers are modelled as integers.  The
    logger is not modelled: it has no influence on any other behaviour. *)

From stdpp Require Import gmap strings list fin_maps.

Local Open Scope string_scope.
Local Open Scope Z_scope.
Local Open Scope list_scope.

(** ** JavaScript values *)

(** [Update = Record<string, string | number>]. *)
Inductive Value :=
| VStr (s : string)
| VNum (n : Z).

#[global] Instance Value_eq_dec : EqDecision Value.
Proof. solve_decision. Defined.

(** A state snapshot or an update: the own properties of the object. *)
Abbreviation Update := (gmap string Value) (only parsing).

(** [T | T[]], the argument type of [toArray]. *)
Inductive OneOrMany (A : Type) :=
| One (a : A)
| Many (l : list A).
Arguments One {A} a.
Arguments Many {A} l.

Definition toArray {A} (item : OneOrMany A) : list A :=
  match item with
  | Many l => l
  | One a => [a]
  end.

(** [Array.prototype.includes]. *)
Definition includes {A} `{EqDecision A} (l : list A) (x : A) : bool :=
  bool_decide (x ∈ l).

(** [obj.hasOwnProperty(key)]. *)
Definition hasOwnProperty (obj : gmap string Value) (key : string) : bool :=
  bool_decide (is_Some (obj !! key)).

(** [a === b] on values that may be [undefined]. *)
Definition strict_eq (a b : option Value) : bool := bool_decide (a = b).

(** [s || dflt] for an optional string. *)
Definition or_default (s : option string) (dflt : string) : string :=
  match s with
  | Some s => if String.eqb s "" then dflt else s
  | None => dflt
  end.

(** A property key built from an optional string: [undefined] is
    converted to the key ["undefined"]. *)
Definition property_key (s : option string) : string :=
  match s with
  | Some s => s
  | None => "undefined"
  end.

(** Property names every plain object inherits from [Object.prototype].
    [obj[k]] for such a [k] that is not an own property of [obj] yields
    the inherited member (a function, or the prototype itself for
    [__proto__]), which is truthy and is neither an array nor iterable. *)
Definition Object_prototype_keys : list string :=
  [ "constructor"; "__defineGetter__"; "__defineSetter__"; "hasOwnProperty";
    "__lookupGetter__"; "__lookupSetter__"; "isPrototypeOf";
    "propertyIsEnumerable"; "toString"; "valueOf"; "__proto__";
    "toLocaleString" ].

Definition inherited (key : string) : bool := includes Object_prototype_keys key.

(** [obj[key]] is an inherited member: [key] is inherited and not
    shadowed by an own property. *)
Definition reads_member {V} (obj : gmap string V) (key : string) : bool :=
  bool_decide (obj !! key = None) && inherited key.

(** A computation that may throw. *)
Inductive Outcome (A : Type) :=
| Ok (a : A)
| Throw (error : string).
Arguments Ok {A} a.
Arguments Throw {A} error.

(** ** Relational operators *)

(** [ToNumber] on strings, as the relational operators apply it to a
    string operand compared with a number; [None] is [NaN]. *)
Class JsCoercion := StringToNumber : string -> option Z.

Section Relational.
Context {coercion : JsCoercion}.

Definition ToNumber (v : option Value) : option Z :=
  match v with
  | Some (VNum n) => Some n
  | Some (VStr s) => StringToNumber s
  | None => None
  end.

(** [v < n], [v > n], [v <= n], [v >= n] for a number [n]: false as
    soon as [v] converts to [NaN]. *)
Definition js_lt (v : option Value) (n : Z) : bool :=
  match ToNumber v with Some x => x <? n | None => false end.
Definition js_gt (v : option Value) (n : Z) : bool :=
  match ToNumber v with Some x => n <? x | None => false end.
Definition js_le (v : option Value) (n : Z) : bool :=
  match ToNumber v with Some x => x <=? n | None => false end.
Definition js_ge (v : option Value) (n : Z) : bool :=
  match ToNumber v with Some x => n <=? x | None => false end.
End Relational.

(** Truthiness of a number that may be absent: [undefined] and [0] are
    falsy. *)
Definition truthy_number (n : option Z) : bool :=
  match n with
  | Some n => negb (n =? 0)
  | None => false
  end.

(** Truthiness of [trigger.entity]: a string unless empty, any array. *)
Definition truthy_entity (e : option (OneOrMany string)) : bool :=
  match e with
  | Some (One s) => negb (String.eqb s "")
  | Some (Many _) => true
  | None => false
  end.

(** ** Enumerations of the configuration *)

Module ConfigPlatform.
Definition ACTION := "action".
Definition STATE := "state".
Definition STATE_L1 := "state_l1".
Definition STATE_L2 := "state_l2".
Definition NUMERIC_STATE := "numeric_state".
(** [Object.values(ConfigPlatform)] of the second variant. *)
Definition values : list string :=
  [ACTION; STATE; STATE_L1; STATE_L2; NUMERIC_STATE].
(** [Object.values(ConfigPlatform)] of the first variant. *)
Definition values_v1 : list string := [ACTION; STATE; NUMERIC_STATE].
End ConfigPlatform.

Module StateOnOff.
Definition ON := "ON".
Definition OFF := "OFF".
End StateOnOff.

Module ConfigService.
Definition TOGGLE := "toggle".
Definition TURN_ON := "turn_on".
Definition TURN_OFF := "turn_off".
Definition CUSTOM := "custom".
Definition values : list string := [TOGGLE; TURN_ON; TURN_OFF; CUSTOM].
Definition values_v1 : list string := [TOGGLE; TURN_ON; TURN_OFF].
End ConfigService.

(** ** Configuration records *)

(** A trigger as it is read from the configuration.  The fields a
    platform does not use are absent ([None], or [Many []] for the
    accepted-value lists: an absent list accepts no value). *)
Module Trigger.
Record t := make {
  platform : string;
  entity : option (OneOrMany string);
  action : OneOrMany Value;
  state : OneOrMany Value;
  state_l1 : OneOrMany Value;
  state_l2 : OneOrMany Value;
  attribute : option string;
  above : option Z;
  below : option Z;
  for_ : option Z;
}.
End Trigger.

(** An absent [entity] is the empty string: both are falsy, and
    [parseConfig] rejects both. *)
Module Condition.
Record t := make {
  platform : string;
  entity : string;
  attribute : option string;
  state : option Value;
  above : option Z;
  below : option Z;
}.
End Condition.

Module Action.
Record t := make {
  entity : string;
  service : string;
  data : option (gmap string Value);
}.
End Action.

(** Rule identifiers.  [crypto.randomUUID()] returns a value that no
    earlier call returned; an identifier is modelled by the number of
    calls that preceded the one that drew it. *)
Abbreviation Id := nat (only parsing).

Definition randomUUID (drawn : nat) : Id * nat := (drawn, S drawn).

(** Handles of the host's timers: [setTimeout] returns a fresh one. *)
Abbreviation Handle := nat (only parsing).

Module Automation.
Record t := make {
  id : Id;
  trigger : Trigger.t;
  action : list Action.t;
  condition : list Condition.t;
}.
End Automation.

(** A raw configuration entry. *)
Module ConfigAutomation.
Record t := make {
  trigger : Trigger.t;
  action : OneOrMany Action.t;
  condition : option (OneOrMany Condition.t);
}.
End ConfigAutomation.

(** ** The host *)

(** What [zigbee.resolveEntity] returns. *)
Record Entity := { name : string }.

(** The host as one event sees it: the entity resolver and the live
    state store ([this.zigbee], [this.state]). *)
Record World := {
  resolveEntity : string -> option Entity;
  state_get : Entity -> gmap string Value;
}.

(** The [data] that [runActions] serialises and publishes. *)
Inductive Data :=
| DataState (newState : option Value)
| DataCustom (data : option (gmap string Value)).

(** What the extension does that its callers can observe. *)
Inductive Event :=
| CallCheckCondition (condition : Condition.t)
| CallRunActions (actions : list Action.t)
| Publish (topic : string) (data : Data).

(** The three results of the trigger matcher: [true], [false], [null]. *)
Abbreviation MATCH := (Some true) (only parsing).
Abbreviation NEGATIVE_EDGE := (Some false) (only parsing).
Abbreviation NO_MATCH := (@None bool) (only parsing).

(** ** The second variant *)

Module V2.

Section Engine.

Context {coercion : JsCoercion}.

(** The body shared by the three state-like cases of [checkTrigger]. *)
Definition checkStateLike (attribute : string) (states : list Value)
    (update from to : Update) : option bool :=
  if negb (hasOwnProperty update attribute)
     || negb (hasOwnProperty from attribute)
     || negb (hasOwnProperty to attribute)
  then None
  else if strict_eq (from !! attribute) (to !! attribute) then None
  else match update !! attribute with
       | Some v => Some (includes states v)
       | None => Some false
       end.

Definition checkAbove (above : option Z) (fromv tov : option Value)
    (k : option bool) : option bool :=
  match above with
  | Some a =>
      if js_lt tov a then Some false
      else if js_ge fromv a then None
      else k
  | None => k
  end.

Definition checkBelow (below : option Z) (fromv tov : option Value)
    (k : option bool) : option bool :=
  match below with
  | Some b =>
      if js_gt tov b then Some false
      else if js_le fromv b then None
      else k
  | None => k
  end.

Definition checkTrigger (configTrigger : Trigger.t)
    (update from to : Update) : option bool :=
  let platform := Trigger.platform configTrigger in
  if String.eqb platform ConfigPlatform.ACTION then
    match update !! "action" with
    | None => None
    | Some v => Some (includes (toArray (Trigger.action configTrigger)) v)
    end
  else if String.eqb platform ConfigPlatform.STATE then
    checkStateLike (or_default (Trigger.attribute configTrigger) "state")
      (toArray (Trigger.state configTrigger)) update from to
  else if String.eqb platform ConfigPlatform.STATE_L1 then
    checkStateLike (or_default (Trigger.attribute configTrigger) "state_l1")
      (toArray (Trigger.state_l1 configTrigger)) update from to
  else if String.eqb platform ConfigPlatform.STATE_L2 then
    checkStateLike (or_default (Trigger.attribute configTrigger) "state_l2")
      (toArray (Trigger.state_l2 configTrigger)) update from to
  else if String.eqb platform ConfigPlatform.NUMERIC_STATE then
    let attribute := property_key (Trigger.attribute configTrigger) in
    if negb (hasOwnProperty update attribute)
       || negb (hasOwnProperty from attribute)
       || negb (hasOwnProperty to attribute)
    then None
    else if strict_eq (from !! attribute) (to !! attribute) then None
    else
      checkAbove (Trigger.above configTrigger) (from !! attribute) (to !! attribute)
        (checkBelow (Trigger.below configTrigger) (from !! attribute) (to !! attribute)
           (Some true))
  else Some false.

(** [settings.get().mqtt.base_topic]. *)
Variable mqttBaseTopic : string.

(** *** Condition evaluator *)

Definition checkCondition (w : World) (condition : Condition.t) : bool :=
  match resolveEntity w (Condition.entity condition) with
  | None => true
  | Some entity =>
      let platform := Condition.platform condition in
      let stateLike (dflt : string) :=
        let attribute := or_default (Condition.attribute condition) dflt in
        let currentState := state_get w entity !! attribute in
        if reads_member (state_get w entity) attribute
           || negb (strict_eq currentState (Condition.state condition))
        then false else true in
      if String.eqb platform ConfigPlatform.STATE then stateLike "state"
      else if String.eqb platform ConfigPlatform.STATE_L1 then stateLike "state_l1"
      else if String.eqb platform ConfigPlatform.STATE_L2 then stateLike "state_l2"
      else if String.eqb platform ConfigPlatform.NUMERIC_STATE then
        let attribute := property_key (Condition.attribute condition) in
        let currentState := state_get w entity !! attribute in
        if match Condition.above condition with
           | Some a => js_lt currentState a
           | None => false
           end
        then false
        else if match Condition.below condition with
                | Some b => js_gt currentState b
                | None => false
                end
        then false
        else true
      else true
  end.

(** *** Action runner *)

Definition newStateOf (service : string) (currentState : option Value)
    : option Value :=
  if String.eqb service ConfigService.TURN_ON then Some (VStr StateOnOff.ON)
  else if String.eqb service ConfigService.TURN_OFF then Some (VStr StateOnOff.OFF)
  else if String.eqb service ConfigService.TOGGLE then
    if strict_eq currentState (Some (VStr StateOnOff.ON))
    then Some (VStr StateOnOff.OFF) else Some (VStr StateOnOff.ON)
  else None.

(** One iteration of the loop of [runActions]. *)
Definition runAction (w : World) (action : Action.t) : list Event :=
  match resolveEntity w (Action.entity action) with
  | None => []
  | Some destination =>
      let currentState := state_get w destination !! "state" in
      let newState := newStateOf (Action.service action) currentState in
      let topic := mqttBaseTopic +:+ "/" +:+ name destination +:+ "/set" in
      if String.eqb (Action.service action) ConfigService.CUSTOM
      then [Publish topic (DataCustom (Action.data action))]
      else if strict_eq currentState newState then []
      else [Publish topic (DataState newState)]
  end.

Fixpoint runActions (w : World) (actions : list Action.t) : list Event :=
  match actions with
  | [] => []
  | action :: rest => runAction w action ++ runActions w rest
  end.

Fixpoint checkConditions (w : World) (conditions : list Condition.t)
    (actions : list Action.t) : list Event :=
  match conditions with
  | [] => CallRunActions actions :: runActions w actions
  | condition :: rest =>
      CallCheckCondition condition ::
      (if negb (checkCondition w condition) then []
       else checkConditions w rest actions)
  end.

Definition runActionsWithConditions (w : World)
    (conditions : list Condition.t) (actions : list Action.t) : list Event :=
  checkConditions w conditions actions.

(** *** Timers *)

(** A live host timer: the automation its callback closes over and
    the delay in milliseconds. *)
Record Timer := {
  timer_automation : Automation.t;
  timer_delay : Z;
}.

(** The extension together with the part of the host it drives:
    [automations] and [timeouts] are the fields of the extension,
    [timers] is the host's table of live timers, [listeners] counts the
    state-change listeners the extension has registered, and [trace]
    records what has been done so far, oldest first. *)
Record State := {
  automations : gmap string (list Automation.t);
  timeouts : gmap Id Handle;
  timers : gmap Handle Timer;
  next_handle : Handle;
  listeners : nat;
  trace : list Event;
}.

Definition emit (events : list Event) (st : State) : State :=
  {| automations := automations st; timeouts := timeouts st;
     timers := timers st; next_handle := next_handle st;
     listeners := listeners st; trace := trace st ++ events |}.

(** [setTimeout(callback, ms)]. *)
Definition setTimeout (automation : Automation.t) (ms : Z) (st : State)
    : Handle * State :=
  let h := next_handle st in
  (h, {| automations := automations st; timeouts := timeouts st;
         timers := <[h := {| timer_automation := automation;
                             timer_delay := ms |}]> (timers st);
         next_handle := S h;
         listeners := listeners st; trace := trace st |}).

(** [clearTimeout(timeout)]. *)
Definition clearTimeout (h : Handle) (st : State) : State :=
  {| automations := automations st; timeouts := timeouts st;
     timers := delete h (timers st); next_handle := next_handle st;
     listeners := listeners st; trace := trace st |}.

Definition set_timeouts (f : gmap Id Handle -> gmap Id Handle) (st : State)
    : State :=
  {| automations := automations st; timeouts := f (timeouts st);
     timers := timers st; next_handle := next_handle st;
     listeners := listeners st; trace := trace st |}.

Definition stopTimeout (automationId : Id) (st : State) : State :=
  match timeouts st !! automationId with
  | Some timeout =>
      set_timeouts (delete automationId) (clearTimeout timeout st)
  | None => st
  end.

Definition startTimeout (automation : Automation.t) (time : Z) (st : State)
    : State :=
  let '(timeout, st) := setTimeout automation (time * 1000) st in
  set_timeouts (<[Automation.id automation := timeout]>) st.

(** The callback that [startTimeout] hands to [setTimeout]. *)
Definition timeoutCallback (w : World) (automation : Automation.t)
    (st : State) : State :=
  let st := set_timeouts (delete (Automation.id automation)) st in
  emit (runActionsWithConditions w (Automation.condition automation)
          (Automation.action automation)) st.

Definition runAutomationIfMatches (w : World) (automation : Automation.t)
    (update from to : Update) (st : State) : State :=
  match checkTrigger (Automation.trigger automation) update from to with
  | Some false => stopTimeout (Automation.id automation) st
  | None => st
  | Some true =>
      match timeouts st !! Automation.id automation with
      | Some _ => st
      | None =>
          let for_ := Trigger.for_ (Automation.trigger automation) in
          if truthy_number for_
          then startTimeout automation (default 0 for_) st
          else emit (runActionsWithConditions w
                       (Automation.condition automation)
                       (Automation.action automation)) st
      end
  end.

Fixpoint runAll (w : World) (autos : list Automation.t)
    (update from to : Update) (st : State) : State :=
  match autos with
  | [] => st
  | automation :: rest =>
      runAll w rest update from to
        (runAutomationIfMatches w automation update from to st)
  end.

(** [this.automations[entityId]] is an own property (a rule list), an
    inherited member (truthy, and iterating it throws), or
    [undefined]. *)
Definition findAndRun (w : World) (entityId : string)
    (update from to : Update) (st : State) : Outcome State :=
  match automations st !! entityId with
  | Some autos => Ok (runAll w autos update from to st)
  | None =>
      if inherited entityId
      then Throw "TypeError: automations is not iterable"
      else Ok st
  end.

Definition start (st : State) : State :=
  {| automations := automations st; timeouts := timeouts st;
     timers := timers st; next_handle := next_handle st;
     listeners := S (listeners st); trace := trace st |}.

Definition stop (st : State) : State :=
  {| automations := automations st; timeouts := timeouts st;
     timers := timers st; next_handle := next_handle st;
     listeners := 0%nat; trace := trace st |}.

(** What can happen to a running extension. *)
Inductive Input :=
| StateChange (w : World) (entityName : string) (update from to : Update)
| TimerExpiry (w : World) (h : Handle)
| Start
| Stop.

(** The listener that [start] registers; an exception it throws leaves
    the extension as it was. *)
Definition listener (w : World) (entityName : string)
    (update from to : Update) (st : State) : State :=
  match findAndRun w entityName update from to st with
  | Ok st' => st'
  | Throw _ => st
  end.

(** One atomically processed occurrence.  A state change is delivered
    to every registered listener.  A timer expires only if it is live;
    the host then drops it and runs its callback. *)
Definition step (st : State) (i : Input) : State :=
  match i with
  | StateChange w entityName update from to =>
      Nat.iter (listeners st) (listener w entityName update from to) st
  | TimerExpiry w h =>
      match timers st !! h with
      | Some t => timeoutCallback w (timer_automation t) (clearTimeout h st)
      | None => st
      end
  | Start => start st
  | Stop => stop st
  end.

Definition run (st : State) (inputs : list Input) : State :=
  foldl step st inputs.

End Engine.

(** *** Rule store *)

(** The loop of [parseConfig] over the trigger's entities.  [result] is
    the object under construction and [drawn] the number of identifiers
    drawn so far.  [result[entityId]] is falsy only when it is neither
    an own nor an inherited property; an inherited member is truthy and
    has no [push]. *)
Fixpoint pushReplicas (trigger : Trigger.t) (actions : list Action.t)
    (conditions : list Condition.t) (entities : list string)
    (result : gmap string (list Automation.t)) (drawn : nat)
    : Outcome (gmap string (list Automation.t) * nat) :=
  match entities with
  | [] => Ok (result, drawn)
  | entityId :: rest =>
      match result !! entityId with
      | None =>
          if inherited entityId
          then Throw "TypeError: result[entityId].push is not a function"
          else
            let '(id, drawn) := randomUUID drawn in
            pushReplicas trigger actions conditions rest
              (<[entityId := [Automation.make id trigger actions conditions]]> result)
              drawn
      | Some bucket =>
          let '(id, drawn) := randomUUID drawn in
          pushReplicas trigger actions conditions rest
            (<[entityId := (bucket ++ [Automation.make id trigger actions conditions])]> result)
            drawn
      end
  end.

Definition validAction (action : Action.t) : bool :=
  includes ConfigService.values (Action.service action).

Definition validCondition (condition : Condition.t) : bool :=
  negb (String.eqb (Condition.entity condition) "")
  && includes ConfigPlatform.values (Condition.platform condition).

(** The callback that [parseConfig] passes to [reduce]. *)
Definition parseEntry (acc : gmap string (list Automation.t) * nat)
    (automation : ConfigAutomation.t)
    : Outcome (gmap string (list Automation.t) * nat) :=
  let trigger := ConfigAutomation.trigger automation in
  if negb (includes ConfigPlatform.values (Trigger.platform trigger)) then Ok acc
  else if negb (truthy_entity (Trigger.entity trigger)) then Ok acc
  else
    let actions := toArray (ConfigAutomation.action automation) in
    if negb (forallb validAction actions) then Ok acc
    else
      let conditions :=
        match ConfigAutomation.condition automation with
        | Some c => toArray c
        | None => []
        end in
      if negb (forallb validCondition conditions) then Ok acc
      else
        let entities :=
          match Trigger.entity trigger with
          | Some e => toArray e
          | None => []
          end in
        pushReplicas trigger actions conditions entities acc.1 acc.2.

Fixpoint reduce (entries : list ConfigAutomation.t)
    (acc : gmap string (list Automation.t) * nat)
    : Outcome (gmap string (list Automation.t) * nat) :=
  match entries with
  | [] => Ok acc
  | automation :: rest =>
      match parseEntry acc automation with
      | Ok acc => reduce rest acc
      | Throw e => Throw e
      end
  end.

(** [parseConfig] on the values of the configuration mapping, in
    property order; [drawn] is the number of identifiers drawn before
    the call. *)
Definition parseConfig (automations : list ConfigAutomation.t) (drawn : nat)
    : Outcome (gmap string (list Automation.t) * nat) :=
  reduce automations (∅, drawn).

(** The state the constructor leaves, from a parsed rule store. *)
Definition loaded (rules : gmap string (list Automation.t)) : State :=
  {| automations := rules; timeouts := ∅; timers := ∅; next_handle := 0%nat;
     listeners := 0%nat; trace := [] |}.

End V2.

(** ** The first variant *)

Module V1.

Module Automation.
Record t := make {
  trigger : Trigger.t;
  action : list Action.t;
}.
End Automation.

Fixpoint pushReplicas (trigger : Trigger.t) (actions : list Action.t)
    (entities : list string) (result : gmap string (list Automation.t))
    : Outcome (gmap string (list Automation.t)) :=
  match entities with
  | [] => Ok result
  | entityId :: rest =>
      match result !! entityId with
      | None =>
          if inherited entityId
          then Throw "TypeError: result[entityId].push is not a function"
          else pushReplicas trigger actions rest
                 (<[entityId := [Automation.make trigger actions]]> result)
      | Some bucket =>
          pushReplicas trigger actions rest
            (<[entityId := (bucket ++ [Automation.make trigger actions])]> result)
      end
  end.

Definition validAction (action : Action.t) : bool :=
  includes ConfigService.values_v1 (Action.service action).

Definition parseEntry (result : gmap string (list Automation.t))
    (automation : ConfigAutomation.t) : Outcome (gmap string (list Automation.t)) :=
  let trigger := ConfigAutomation.trigger automation in
  if negb (includes ConfigPlatform.values_v1 (Trigger.platform trigger)) then Ok result
  else if negb (truthy_entity (Trigger.entity trigger)) then Ok result
  else
    let actions := toArray (ConfigAutomation.action automation) in
    if negb (forallb validAction actions) then Ok result
    else
      let entities :=
        match Trigger.entity trigger with
        | Some e => toArray e
        | None => []
        end in
      pushReplicas trigger actions entities result.

Fixpoint reduce (entries : list ConfigAutomation.t)
    (result : gmap string (list Automation.t))
    : Outcome (gmap string (list Automation.t)) :=
  match entries with
  | [] => Ok result
  | automation :: rest =>
      match parseEntry result automation with
      | Ok result => reduce rest result
      | Throw e => Throw e
      end
  end.

Definition parseConfig (automations : list ConfigAutomation.t)
    : Outcome (gmap string (list Automation.t)) :=
  reduce automations ∅.

Section Engine.

Context {coercion : JsCoercion}.
Variable mqttBaseTopic : string.

Definition newStateOf (service : string) (currentState : option Value)
    : option Value :=
  if String.eqb service ConfigService.TURN_ON then Some (VStr StateOnOff.ON)
  else if String.eqb service ConfigService.TURN_OFF then Some (VStr StateOnOff.OFF)
  else if String.eqb service ConfigService.TOGGLE then
    if strict_eq currentState (Some (VStr StateOnOff.ON))
    then Some (VStr StateOnOff.OFF) else Some (VStr StateOnOff.ON)
  else None.

Definition runAction (w : World) (action : Action.t) : list Event :=
  match resolveEntity w (Action.entity action) with
  | None => []
  | Some destination =>
      let currentState := state_get w destination !! "state" in
      let newState := newStateOf (Action.service action) currentState in
      if strict_eq currentState newState then []
      else [Publish (mqttBaseTopic +:+ "/" +:+ name destination +:+ "/set")
              (DataState newState)]
  end.

Fixpoint runActions (w : World) (actions : list Action.t) : list Event :=
  match actions with
  | [] => []
  | action :: rest => runAction w action ++ runActions w rest
  end.

(** The events of one call: [runActions] is either called on the
    automation's actions or the call returns without effect. *)
Definition runAutomationIfMatches (w : World) (automation : Automation.t)
    (update from to : Update) : list Event :=
  let trigger := Automation.trigger automation in
  let platform := Trigger.platform trigger in
  let fire := CallRunActions (Automation.action automation)
              :: runActions w (Automation.action automation) in
  if String.eqb platform ConfigPlatform.ACTION then
    match update !! "action" with
    | None => []
    | Some v =>
        if negb (includes (toArray (Trigger.action trigger)) v) then []
        else fire
    end
  else if String.eqb platform ConfigPlatform.STATE then
    if negb (hasOwnProperty update "state")
       || negb (hasOwnProperty from "state")
       || negb (hasOwnProperty to "state")
    then []
    else if strict_eq (from !! "state") (to !! "state") then []
    else match update !! "state" with
         | Some v =>
             if negb (includes (toArray (Trigger.state trigger)) v) then []
             else fire
         | None => []
         end
  else if String.eqb platform ConfigPlatform.NUMERIC_STATE then
    let attribute := property_key (Trigger.attribute trigger) in
    if negb (hasOwnProperty update attribute)
       || negb (hasOwnProperty from attribute)
       || negb (hasOwnProperty to attribute)
    then []
    else if strict_eq (from !! attribute) (to !! attribute) then []
    else if match Trigger.above trigger with
            | Some a => js_ge (from !! attribute) a || js_lt (to !! attribute) a
            | None => false
            end then []
    else if match Trigger.below trigger with
            | Some b => js_le (from !! attribute) b || js_gt (to !! attribute) b
            | None => false
            end then []
    else fire
  else [].

Fixpoint runAll (w : World) (autos : list Automation.t)
    (update from to : Update) : list Event :=
  match autos with
  | [] => []
  | automation :: rest =>
      runAutomationIfMatches w automation update from to
      ++ runAll w rest update from to
  end.

(** The events of one call of [findAndRun] on the rule store. *)
Definition findAndRun (automations : gmap string (list Automation.t))
    (w : World) (entityId : string) (update from to : Update)
    : Outcome (list Event) :=
  match automations !! entityId with
  | Some autos => Ok (runAll w autos update from to)
  | None =>
      if inherited entityId
      then Throw "TypeError: automations is not iterable"
      else Ok []
  end.

End Engine.

End V1.

(** ** Vocabulary of the statements *)

(** The state-like platforms. *)
Definition isStateLike (platform : string) : Prop :=
  platform = ConfigPlatform.STATE
  ∨ platform = ConfigPlatform.STATE_L1
  ∨ platform = ConfigPlatform.STATE_L2.

(** The attribute a state-like trigger watches: the configured one, or
    the platform default, which carries the platform's name. *)
Definition effectiveAttribute (trig : Trigger.t) : string :=
  or_default (Trigger.attribute trig) (Trigger.platform trig).

(** The accepted values of a state-like trigger: the field that carries
    the platform's name. *)
Definition acceptedValues (trig : Trigger.t) : list Value :=
  if String.eqb (Trigger.platform trig) ConfigPlatform.STATE
  then toArray (Trigger.state trig)
  else if String.eqb (Trigger.platform trig) ConfigPlatform.STATE_L1
  then toArray (Trigger.state_l1 trig)
  else toArray (Trigger.state_l2 trig).

(** The pending-timer map and the host's live timers name each other:
    every entry of [timeouts] is the handle of a live timer of that
    rule, every live timer is the entry of its rule, and handles below
    [next_handle] are the only ones in use. *)
Definition timers_consistent (st : V2.State) : Prop :=
  (∀ id h, V2.timeouts st !! id = Some h →
     ∃ t, V2.timers st !! h = Some t
          ∧ Automation.id (V2.timer_automation t) = id)
  ∧ (∀ h t, V2.timers st !! h = Some t →
       V2.timeouts st !! Automation.id (V2.timer_automation t) = Some h)
  ∧ (∀ h, is_Some (V2.timers st !! h) → (h < V2.next_handle st)%nat).

(** The checks of [parseConfig] that an entry must pass to be loaded. *)
Definition accepts (automation : ConfigAutomation.t) : bool :=
  includes ConfigPlatform.values
    (Trigger.platform (ConfigAutomation.trigger automation))
  && truthy_entity (Trigger.entity (ConfigAutomation.trigger automation))
  && forallb V2.validAction (toArray (ConfigAutomation.action automation))
  && forallb V2.validCondition
       (match ConfigAutomation.condition automation with
        | Some c => toArray c
        | None => []
        end).

(** The entities an entry's trigger names. *)
Definition entitiesOf (automation : ConfigAutomation.t) : list string :=
  match Trigger.entity (ConfigAutomation.trigger automation) with
  | Some e => toArray e
  | None => []
  end.

(** The rule that [parseConfig] stores for an entry under identifier [id]. *)
Definition replicaOf (automation : ConfigAutomation.t) (id : nat) : Automation.t :=
  Automation.make id (ConfigAutomation.trigger automation)
    (toArray (ConfigAutomation.action automation))
    (match ConfigAutomation.condition automation with
     | Some c => toArray c
     | None => []
     end).

(** The rules stored for an entity, none if it has no bucket. *)
Definition bucket (rules : gmap string (list Automation.t)) (entityId : string)
    : list Automation.t :=
  default [] (rules !! entityId).

(** An input that is a state-change event. *)
Definition isStateChange (i : V2.Input) : Prop :=
  match i with
  | V2.StateChange _ _ _ _ _ => True
  | _ => False
  end.

(** The attribute a state-like or numeric trigger reads in [update],
    [from] and [to]. *)
Definition watchedAttribute (trig : Trigger.t) : string :=
  if String.eqb (Trigger.platform trig) ConfigPlatform.NUMERIC_STATE
  then property_key (Trigger.attribute trig)
  else effectiveAttribute trig.

(** The attribute a condition reads in the live state. *)
Definition conditionAttribute (c : Condition.t) : string :=
  if String.eqb (Condition.platform c) ConfigPlatform.NUMERIC_STATE
  then property_key (Condition.attribute c)
  else or_default (Condition.attribute c) (Condition.platform c).

(** The command topic of a destination. *)
Definition setTopic (mqttBaseTopic : string) (destination : Entity) : string :=
  mqttBaseTopic +:+ "/" +:+ name destination +:+ "/set".

(** An event that is not a publish, or a publish to a command topic. *)
Definition publishesToSetTopic (mqttBaseTopic : string) (ev : Event) : Prop :=
  match ev with
  | Publish topic _ => ∃ destination, topic = setTopic mqttBaseTopic destination
  | _ => True
  end.

(** A rule of the second variant as the first variant stores it. *)
Definition erase (a : Automation.t) : V1.Automation.t :=
  V1.Automation.make (Automation.trigger a) (Automation.action a).

Definition eraseStore (rules : gmap string (list Automation.t))
    : gmap string (list V1.Automation.t) :=
  fmap (M := gmap string) (fmap (M := list) erase) rules.

(** A trigger that both variants read alike: an action or numeric
    trigger, or a state trigger on the attribute [state]. *)
Definition commonTrigger (trig : Trigger.t) : Prop :=
  Trigger.platform trig = ConfigPlatform.ACTION
  ∨ Trigger.platform trig = ConfigPlatform.NUMERIC_STATE
  ∨ (Trigger.platform trig = ConfigPlatform.STATE
     ∧ effectiveAttribute trig = "state").

(** An entry within the configuration language of the first variant:
    no alternate state channel, no custom service, no condition. *)
Definition commonEntry (automation : ConfigAutomation.t) : Prop :=
  Trigger.platform (ConfigAutomation.trigger automation) ≠ ConfigPlatform.STATE_L1
  ∧ Trigger.platform (ConfigAutomation.trigger automation) ≠ ConfigPlatform.STATE_L2
  ∧ Forall (λ a, Action.service a ≠ ConfigService.CUSTOM)
      (toArray (ConfigAutomation.action automation))
  ∧ ConfigAutomation.condition automation = None.

(** A stored rule that runs at once and as the first variant would. *)
Definition commonRule (a : Automation.t) : Prop :=
  commonTrigger (Automation.trigger a)
  ∧ truthy_number (Trigger.for_ (Automation.trigger a)) = false
  ∧ Automation.condition a = []
  ∧ Forall (λ act, Action.service act ≠ ConfigService.CUSTOM) (Automation.action a).

(** A rule that passed the checks of [parseConfig]. *)
Definition validRule (a : Automation.t) : Prop :=
  Trigger.platform (Automation.trigger a) ∈ ConfigPlatform.values
  ∧ Forall (λ act, Action.service act ∈ ConfigService.values) (Automation.action a)
  ∧ Forall (λ c, Condition.entity c ≠ ""
                 ∧ Condition.platform c ∈ ConfigPlatform.values)
      (Automation.condition a).

(** The rule identifiers of a store lie in a range and name one rule
    each. *)
Definition idsFresh (rules : gmap string (list Automation.t)) (lo hi : nat) : Prop :=
  (∀ e a, a ∈ bucket rules e → (lo ≤ Automation.id a < hi)%nat)
  ∧ (∀ e1 e2 i j a b,
       bucket rules e1 !! i = Some a → bucket rules e2 !! j = Some b →
       Automation.id a = Automation.id b → e1 = e2 ∧ i = j).

(** ** Sample data *)

Fixpoint digits (s : string) (acc : Z) : option Z :=
  match s with
  | EmptyString => Some acc
  | String c rest =>
      let n := Z.of_N (Ascii.N_of_ascii c) in
      if (48 <=? n) && (n <=? 57) then digits rest (10 * acc + (n - 48))
      else None
  end.

(** A coercion that reads decimal integer literals; the empty string
    converts to [0] and anything else to [NaN]. *)
Definition decimalToNumber : JsCoercion := fun s =>
  match s with
  | EmptyString => Some 0
  | String (Ascii.Ascii true false true true false true false false) EmptyString => None
  | String (Ascii.Ascii true false true true false true false false) rest => Z.opp <$> digits rest 0
  | _ => digits s 0
  end.

Definition sampleStateTrigger (for_ : option Z) : Trigger.t :=
  Trigger.make "state" (Some (One "X")) (Many []) (One (VStr "ON"))
    (Many []) (Many []) None None None for_.

Definition sampleActionTrigger (for_ : option Z) : Trigger.t :=
  Trigger.make "action" (Some (One "X")) (One (VStr "hold")) (Many [])
    (Many []) (Many []) None None None for_.

Definition sampleNumericTrigger (above below : option Z) : Trigger.t :=
  Trigger.make "numeric_state" (Some (One "X")) (Many []) (Many [])
    (Many []) (Many []) (Some "temperature") above below None.

Definition stateOf (v : string) : gmap string Value := {[ "state" := VStr v ]}.
Definition temperatureOf (n : Z) : gmap string Value := {[ "temperature" := VNum n ]}.

Definition sampleWorld (stateOfY : string) : World :=
  {| resolveEntity := fun id =>
       if String.eqb id "X" then Some {| name := "X" |}
       else if String.eqb id "Y" then Some {| name := "Y" |}
       else None;
     state_get := fun e =>
       if String.eqb (name e) "Y" then stateOf stateOfY else ∅ |}.

Definition turnOnY : Action.t := Action.make "Y" "turn_on" None.

Definition sampleAutomation (id : nat) (trig : Trigger.t) : Automation.t :=
  Automation.make id trig [turnOnY] [].

(** A loaded extension that watches ["X"] with one rule. *)
Definition sampleState (trig : Trigger.t) : V2.State :=
  V2.loaded {[ "X" := [sampleAutomation 0 trig] ]}.

Definition actionOf (v : string) : gmap string Value := {[ "action" := VStr v ]}.

(** An entry with a state trigger on the given entities and one action. *)
Definition sampleEntry (entity : OneOrMany string) (service : string)
    : ConfigAutomation.t :=
  ConfigAutomation.make
    (Trigger.make "state" (Some entity) (Many []) (One (VStr "ON"))
       (Many []) (Many []) None None None None)
    (One (Action.make "Y" service None)) None.

(** The sample extension after a MATCH of its rule, which waits 10 s. *)
Definition pendingState : V2.State :=
  V2.run (coercion := decimalToNumber) "zigbee2mqtt"
    (sampleState (sampleStateTrigger (Some 10)))
    [V2.Start;
     V2.StateChange (sampleWorld "OFF") "X" (stateOf "ON") (stateOf "OFF") (stateOf "ON")].

(** A host that knows a thermometer ["T"] reading the given value. *)
Definition sampleClimate (temperature : Z) : World :=
  {| resolveEntity := fun id =>
       if String.eqb id "T" then Some {| name := "T" |} else None;
     state_get := fun _ => temperatureOf temperature |}.

Definition toggleY : Action.t := Action.make "Y" "toggle" None.

(** An action on an entity that [sampleWorld] does not know. *)
Definition turnOnZ : Action.t := Action.make "Z" "turn_on" None.

(** An entry whose trigger platform is not recognised. *)
Definition unknownPlatformEntry : ConfigAutomation.t :=
  ConfigAutomation.make
    (Trigger.make "sunrise" (Some (One "X")) (Many []) (Many [])
       (Many []) (Many []) None None None None)
    (One turnOnY) None.

(** A rule store with one rule that fires at once. *)
Definition sampleRules : gmap string (list Automation.t) :=
  {[ "X" := [sampleAutomation 0 (sampleStateTrigger None)] ]}.

(** The rule store of an entry that names two entities. *)
Definition twoEntityRules : gmap string (list Automation.t) :=
  {[ "X" := [replicaOf (sampleEntry (Many ["X"; "Y"]) "turn_on") 0];
     "Y" := [replicaOf (sampleEntry (Many ["X"; "Y"]) "turn_on") 1] ]}.

(** ** Properties *)

Lemma hasOwnProperty_Some (obj : gmap string Value) key v :
  obj !! key = Some v → hasOwnProperty obj key = true.
Proof.
  intros Hk. unfold hasOwnProperty. apply bool_decide_eq_true. by exists v.
Qed.

Lemma strict_eq_true a b : strict_eq a b = true ↔ a = b.
Proof. unfold strict_eq. apply bool_decide_eq_true. Qed.

Lemma strict_eq_false a b : strict_eq a b = false ↔ a ≠ b.
Proof. unfold strict_eq. apply bool_decide_eq_false. Qed.

Lemma includes_true {A} `{EqDecision A} (l : list A) x :
  includes l x = true ↔ x ∈ l.
Proof. unfold includes. apply bool_decide_eq_true. Qed.

Lemma includes_false {A} `{EqDecision A} (l : list A) x :
  includes l x = false ↔ x ∉ l.
Proof. unfold includes. apply bool_decide_eq_false. Qed.

Section Properties.

Context {coercion : JsCoercion}.
Variable mqttBaseTopic : string.

(** *** Trigger matcher *)

Lemma checkStateLike_carried attribute states (update from to : Update) u f t :
  update !! attribute = Some u → from !! attribute = Some f →
  to !! attribute = Some t →
  V2.checkStateLike attribute states update from to
  = if bool_decide (f = t) then None else Some (includes states u).
Proof.
  intros Hu Hf Ht. unfold V2.checkStateLike.
  rewrite (hasOwnProperty_Some _ _ _ Hu), (hasOwnProperty_Some _ _ _ Hf),
    (hasOwnProperty_Some _ _ _ Ht), Hu, Hf, Ht. simpl.
  unfold strict_eq. destruct (decide (f = t)) as [->|Hne].
  - by rewrite !bool_decide_eq_true_2.
  - rewrite !bool_decide_eq_false_2; [done | done | congruence].
Qed.

Lemma checkTrigger_stateLike trig update from to :
  isStateLike (Trigger.platform trig) →
  V2.checkTrigger trig update from to
  = V2.checkStateLike (effectiveAttribute trig) (acceptedValues trig) update from to.
Proof.
  unfold V2.checkTrigger, effectiveAttribute, acceptedValues.
  intros [-> | [-> | ->]]; reflexivity.
Qed.

(** *** Scheduler: the effect of each trigger result *)

Lemma stopTimeout_timeouts automationId st :
  V2.timeouts (V2.stopTimeout automationId st) = delete automationId (V2.timeouts st).
Proof.
  unfold V2.stopTimeout. destruct (V2.timeouts st !! automationId) eqn:E; simpl.
  - done.
  - symmetry. by apply delete_id.
Qed.

Lemma stopTimeout_lookup automationId st :
  V2.timeouts (V2.stopTimeout automationId st) !! automationId = None.
Proof. rewrite stopTimeout_timeouts. apply lookup_delete_eq. Qed.

Lemma stopTimeout_cancels automationId st h :
  V2.timeouts st !! automationId = Some h →
  V2.timers (V2.stopTimeout automationId st) = delete h (V2.timers st).
Proof. intros E. unfold V2.stopTimeout. by rewrite E. Qed.

Lemma stopTimeout_idle automationId st :
  V2.timeouts st !! automationId = None → V2.stopTimeout automationId st = st.
Proof. intros E. unfold V2.stopTimeout. by rewrite E. Qed.

Lemma stopTimeout_trace automationId st :
  V2.trace (V2.stopTimeout automationId st) = V2.trace st.
Proof. unfold V2.stopTimeout. by destruct (V2.timeouts st !! automationId). Qed.

Lemma runAutomationIfMatches_negative_edge w automation update from to st :
  V2.checkTrigger (Automation.trigger automation) update from to = NEGATIVE_EDGE →
  V2.runAutomationIfMatches mqttBaseTopic w automation update from to st
  = V2.stopTimeout (Automation.id automation) st.
Proof. intros E. unfold V2.runAutomationIfMatches. by rewrite E. Qed.

Lemma runAutomationIfMatches_no_match w automation update from to st :
  V2.checkTrigger (Automation.trigger automation) update from to = NO_MATCH →
  V2.runAutomationIfMatches mqttBaseTopic w automation update from to st = st.
Proof. intros E. unfold V2.runAutomationIfMatches. by rewrite E. Qed.

Lemma runAutomationIfMatches_pending w automation update from to st h :
  V2.checkTrigger (Automation.trigger automation) update from to = MATCH →
  V2.timeouts st !! Automation.id automation = Some h →
  V2.runAutomationIfMatches mqttBaseTopic w automation update from to st = st.
Proof. intros E Eh. unfold V2.runAutomationIfMatches. by rewrite E, Eh. Qed.

(** A negative edge leaves the rule without a pending timer: the entry
    is removed, the host timer it named is cleared, nothing is run. *)
Lemma negative_edge_cancels w automation update from to st :
  V2.checkTrigger (Automation.trigger automation) update from to = NEGATIVE_EDGE →
  let st' := V2.runAutomationIfMatches mqttBaseTopic w automation update from to st in
  V2.timeouts st' !! Automation.id automation = None
  ∧ (∀ h, V2.timeouts st !! Automation.id automation = Some h →
          V2.timers st' !! h = None)
  ∧ V2.trace st' = V2.trace st.
Proof.
  intros E. cbn zeta. rewrite (runAutomationIfMatches_negative_edge _ _ _ _ _ _ E).
  split; [apply stopTimeout_lookup | split].
  - intros h Eh. rewrite (stopTimeout_cancels _ _ _ Eh). apply lookup_delete_eq.
  - apply stopTimeout_trace.
Qed.

(** *** State-like triggers *)

(** The first variant runs the actions of a state rule exactly on a
    change of [state] to an accepted value. *)
Lemma V1_state_trigger_fires trig w actions (update from to : Update) u f t :
  Trigger.platform trig = ConfigPlatform.STATE →
  update !! "state" = Some u → from !! "state" = Some f → to !! "state" = Some t →
  CallRunActions actions
    ∈ V1.runAutomationIfMatches mqttBaseTopic w
        (V1.Automation.make trig actions) update from to
  ↔ f ≠ t ∧ u ∈ acceptedValues trig.
Proof.
  intros Hp Hu Hf Ht. unfold V1.runAutomationIfMatches, acceptedValues. simpl.
  rewrite Hp. simpl.
  rewrite (hasOwnProperty_Some _ _ _ Hu), (hasOwnProperty_Some _ _ _ Hf),
    (hasOwnProperty_Some _ _ _ Ht), Hu, Hf, Ht. simpl.
  destruct (decide (f = t)) as [-> | Hne].
  - rewrite (proj2 (strict_eq_true _ _) eq_refl). split.
    + intros Hin. by apply elem_of_nil in Hin.
    + by intros [? _].
  - assert (strict_eq (Some f) (Some t) = false) as ->.
    { apply strict_eq_false. congruence. }
    destruct (includes (toArray (Trigger.state trig)) u) eqn:Hinc; simpl.
    + apply includes_true in Hinc. split; [done |]. intros _. apply list_elem_of_here.
    + apply includes_false in Hinc. split.
      * intros Hin. by apply elem_of_nil in Hin.
      * by intros [_ ?].
Qed.

(** C5: for a state-like trigger whose attribute is carried by [update],
    [from] and [to], the result is NO_MATCH when [from] and [to] agree on
    the attribute, whatever [update] holds; otherwise the result is MATCH
    exactly when the value in [update] is an accepted value, whatever the
    value in [to].  The first variant, which has the platform [state] on
    the attribute [state] only, runs the actions in exactly that case. *)
Theorem state_trigger_match_iff trig (update from to : Update) u f t :
  isStateLike (Trigger.platform trig) →
  update !! effectiveAttribute trig = Some u →
  from !! effectiveAttribute trig = Some f →
  to !! effectiveAttribute trig = Some t →
  (f = t → V2.checkTrigger trig update from to = NO_MATCH)
  ∧ (f ≠ t →
     (V2.checkTrigger trig update from to = MATCH ↔ u ∈ acceptedValues trig))
  ∧ (Trigger.platform trig = ConfigPlatform.STATE →
     effectiveAttribute trig = "state" →
     ∀ w actions,
       CallRunActions actions
         ∈ V1.runAutomationIfMatches mqttBaseTopic w
             (V1.Automation.make trig actions) update from to
       ↔ f ≠ t ∧ u ∈ acceptedValues trig).
Proof.
  intros Hp Hu Hf Ht. split; [| split].
  - rewrite (checkTrigger_stateLike _ _ _ _ Hp),
      (checkStateLike_carried _ _ _ _ _ _ _ _ Hu Hf Ht).
    intros ->. by rewrite bool_decide_eq_true_2.
  - rewrite (checkTrigger_stateLike _ _ _ _ Hp),
      (checkStateLike_carried _ _ _ _ _ _ _ _ Hu Hf Ht).
    intros Hne. rewrite bool_decide_eq_false_2 by done.
    rewrite <- includes_true. split; [by intros [= ->] | by intros ->].
  - intros Hstate Hattr w actions. rewrite Hattr in Hu, Hf, Ht.
    by apply V1_state_trigger_fires.
Qed.

(** C10: for a state-like trigger whose attribute is carried by
    [update], [from] and [to], a change of the attribute to a value that
    is not accepted yields NEGATIVE_EDGE, and running a rule with this
    trigger on such an event leaves the rule without a pending timer. *)
Theorem state_trigger_negative_edge trig (update from to : Update) u f t :
  isStateLike (Trigger.platform trig) →
  update !! effectiveAttribute trig = Some u →
  from !! effectiveAttribute trig = Some f →
  to !! effectiveAttribute trig = Some t →
  f ≠ t → u ∉ acceptedValues trig →
  V2.checkTrigger trig update from to = NEGATIVE_EDGE
  ∧ ∀ w automation st,
      Automation.trigger automation = trig →
      let st' := V2.runAutomationIfMatches mqttBaseTopic w automation update from to st in
      V2.timeouts st' !! Automation.id automation = None
      ∧ (∀ h, V2.timeouts st !! Automation.id automation = Some h →
              V2.timers st' !! h = None)
      ∧ V2.trace st' = V2.trace st.
Proof.
  intros Hp Hu Hf Ht Hne Hnot.
  assert (V2.checkTrigger trig update from to = NEGATIVE_EDGE) as E.
  { rewrite (checkTrigger_stateLike _ _ _ _ Hp),
      (checkStateLike_carried _ _ _ _ _ _ _ _ Hu Hf Ht).
    rewrite bool_decide_eq_false_2 by done.
    f_equal. by apply includes_false. }
  split; [done |].
  intros w automation st <-. by apply negative_edge_cancels.
Qed.

(** *** Action triggers *)

(** C3, as the code has it: an action trigger yields MATCH exactly when
    [update] carries an [action] that is accepted, NO_MATCH exactly when
    [update] carries no [action], and NEGATIVE_EDGE exactly when
    [update] carries an [action] that is not accepted; in the last case
    a rule with this trigger is left without a pending timer. *)
Theorem action_trigger_result trig (update from to : Update) :
  Trigger.platform trig = ConfigPlatform.ACTION →
  (V2.checkTrigger trig update from to = MATCH
   ↔ ∃ v, update !! "action" = Some v ∧ v ∈ toArray (Trigger.action trig))
  ∧ (V2.checkTrigger trig update from to = NO_MATCH ↔ update !! "action" = None)
  ∧ (V2.checkTrigger trig update from to = NEGATIVE_EDGE
     ↔ ∃ v, update !! "action" = Some v ∧ v ∉ toArray (Trigger.action trig))
  ∧ (∀ w automation st v,
       Automation.trigger automation = trig →
       update !! "action" = Some v → v ∉ toArray (Trigger.action trig) →
       let st' := V2.runAutomationIfMatches mqttBaseTopic w automation update from to st in
       V2.timeouts st' !! Automation.id automation = None
       ∧ (∀ h, V2.timeouts st !! Automation.id automation = Some h →
               V2.timers st' !! h = None)
       ∧ V2.trace st' = V2.trace st).
Proof.
  intros Hp.
  assert (V2.checkTrigger trig update from to
          = match update !! "action" with
            | None => None
            | Some v => Some (includes (toArray (Trigger.action trig)) v)
            end) as E.
  { unfold V2.checkTrigger. by rewrite Hp. }
  split; [| split; [| split]].
  - rewrite E. destruct (update !! "action") as [v|]; split.
    + intros [= Hin]. exists v. split; [done | by apply includes_true].
    + intros (v' & [= <-] & Hin). f_equal. by apply includes_true.
    + done.
    + by intros (v' & ? & _).
  - rewrite E. by destruct (update !! "action").
  - rewrite E. destruct (update !! "action") as [v|]; split.
    + intros [= Hin]. exists v. split; [done | by apply includes_false].
    + intros (v' & [= <-] & Hin). f_equal. by apply includes_false.
    + done.
    + by intros (v' & ? & _).
  - intros w automation st v <- Hv Hnot. apply negative_edge_cancels.
    rewrite E, Hv. f_equal. by apply includes_false.
Qed.

(** *** Numeric triggers *)

Lemma checkTrigger_numeric trig attr (update from to : Update) u f t :
  Trigger.platform trig = ConfigPlatform.NUMERIC_STATE →
  Trigger.attribute trig = Some attr →
  update !! attr = Some u → from !! attr = Some f → to !! attr = Some t →
  f ≠ t →
  V2.checkTrigger trig update from to
  = V2.checkAbove (Trigger.above trig) (Some f) (Some t)
      (V2.checkBelow (Trigger.below trig) (Some f) (Some t) MATCH).
Proof.
  intros Hp Ha Hu Hf Ht Hne. unfold V2.checkTrigger. rewrite Hp, Ha. simpl.
  rewrite (hasOwnProperty_Some _ _ _ Hu), (hasOwnProperty_Some _ _ _ Hf),
    (hasOwnProperty_Some _ _ _ Ht), Hf, Ht. simpl.
  assert (strict_eq (Some f) (Some t) = false) as ->; [| done].
  apply strict_eq_false. congruence.
Qed.

(** C4: for a numeric trigger whose attribute is carried by [update],
    [from] and [to] with different values in [from] and [to]: with only
    [above] set, the result is NEGATIVE_EDGE if the new value is below
    the threshold, else NO_MATCH if the old value was already at or above
    it, else MATCH; with only [below] set, the same with [>] on the new
    value and [<=] on the old one.  NEGATIVE_EDGE leaves the rule without
    a pending timer and NO_MATCH leaves the extension as it was. *)
Theorem numeric_single_threshold trig attr (update from to : Update) u f t :
  Trigger.platform trig = ConfigPlatform.NUMERIC_STATE →
  Trigger.attribute trig = Some attr →
  update !! attr = Some u → from !! attr = Some f → to !! attr = Some t →
  f ≠ t →
  (∀ a, Trigger.above trig = Some a → Trigger.below trig = None →
        V2.checkTrigger trig update from to
        = if js_lt (Some t) a then NEGATIVE_EDGE
          else if js_ge (Some f) a then NO_MATCH
          else MATCH)
  ∧ (∀ b, Trigger.above trig = None → Trigger.below trig = Some b →
          V2.checkTrigger trig update from to
          = if js_gt (Some t) b then NEGATIVE_EDGE
            else if js_le (Some f) b then NO_MATCH
            else MATCH)
  ∧ (∀ w automation st,
       Automation.trigger automation = trig →
       let st' := V2.runAutomationIfMatches mqttBaseTopic w automation update from to st in
       (V2.checkTrigger trig update from to = NEGATIVE_EDGE →
        V2.timeouts st' !! Automation.id automation = None
        ∧ (∀ h, V2.timeouts st !! Automation.id automation = Some h →
                V2.timers st' !! h = None))
       ∧ (V2.checkTrigger trig update from to = NO_MATCH → st' = st)).
Proof.
  intros Hp Ha Hu Hf Ht Hne.
  rewrite (checkTrigger_numeric _ _ _ _ _ _ _ _ Hp Ha Hu Hf Ht Hne).
  split; [| split].
  - intros a -> ->. reflexivity.
  - intros b -> ->. reflexivity.
  - intros w automation st <-. cbn zeta.
    rewrite <- (checkTrigger_numeric _ _ _ _ _ _ _ _ Hp Ha Hu Hf Ht Hne).
    split.
    + intros E. destruct (negative_edge_cancels w automation update from to st E)
        as (H1 & H2 & _). by split.
    + apply runAutomationIfMatches_no_match.
Qed.

(** *** Action runner *)

Lemma V2_runActions_app w (pre post : list Action.t) :
  V2.runActions mqttBaseTopic w (pre ++ post)
  = V2.runActions mqttBaseTopic w pre ++ V2.runActions mqttBaseTopic w post.
Proof.
  induction pre as [|a pre IH]; simpl; [done |]. by rewrite IH, app_assoc.
Qed.

Lemma V1_runActions_app w (pre post : list Action.t) :
  V1.runActions mqttBaseTopic w (pre ++ post)
  = V1.runActions mqttBaseTopic w pre ++ V1.runActions mqttBaseTopic w post.
Proof.
  induction pre as [|a pre IH]; simpl; [done |]. by rewrite IH, app_assoc.
Qed.

Lemma V2_runAction_redundant w action destination :
  Action.service action ≠ ConfigService.CUSTOM →
  resolveEntity w (Action.entity action) = Some destination →
  V2.newStateOf (Action.service action) (state_get w destination !! "state")
  = state_get w destination !! "state" →
  V2.runAction mqttBaseTopic w action = [].
Proof.
  intros Hs Hr Hn. unfold V2.runAction. rewrite Hr, Hn.
  apply String.eqb_neq in Hs. rewrite Hs.
  by rewrite (proj2 (strict_eq_true _ _) eq_refl).
Qed.

Lemma V1_runAction_redundant w action destination :
  resolveEntity w (Action.entity action) = Some destination →
  V1.newStateOf (Action.service action) (state_get w destination !! "state")
  = state_get w destination !! "state" →
  V1.runAction mqttBaseTopic w action = [].
Proof.
  intros Hr Hn. unfold V1.runAction. rewrite Hr, Hn.
  by rewrite (proj2 (strict_eq_true _ _) eq_refl).
Qed.

(** C7: a non-custom action whose computed new state equals the current
    state of its target publishes nothing, alone or inside a list of
    actions, in both variants; so does [turn_on] on a target that is
    already ON. *)
Theorem redundant_action_not_published w action destination :
  Action.service action ≠ ConfigService.CUSTOM →
  resolveEntity w (Action.entity action) = Some destination →
  (V2.newStateOf (Action.service action) (state_get w destination !! "state")
   = state_get w destination !! "state" →
   V2.runAction mqttBaseTopic w action = []
   ∧ V1.runAction mqttBaseTopic w action = []
   ∧ ∀ pre post,
       V2.runActions mqttBaseTopic w (pre ++ action :: post)
       = V2.runActions mqttBaseTopic w (pre ++ post)
       ∧ V1.runActions mqttBaseTopic w (pre ++ action :: post)
         = V1.runActions mqttBaseTopic w (pre ++ post))
  ∧ (Action.service action = ConfigService.TURN_ON →
     state_get w destination !! "state" = Some (VStr StateOnOff.ON) →
     V2.runActions mqttBaseTopic w [action] = []
     ∧ V1.runActions mqttBaseTopic w [action] = []).
Proof.
  intros Hs Hr.
  assert (V2.newStateOf (Action.service action) (state_get w destination !! "state")
          = state_get w destination !! "state" →
          V2.runAction mqttBaseTopic w action = []
          ∧ V1.runAction mqttBaseTopic w action = []) as Hone.
  { intros Hn. split; [by eapply V2_runAction_redundant |].
    by eapply V1_runAction_redundant. }
  split.
  - intros Hn. destruct (Hone Hn) as [E2 E1]. repeat split; [done | done | |].
    + rewrite !V2_runActions_app. simpl. by rewrite E2.
    + rewrite !V1_runActions_app. simpl. by rewrite E1.
  - intros Hon Hcur. simpl. rewrite !app_nil_r. apply Hone.
    by rewrite Hon, Hcur.
Qed.

(** *** Condition evaluator *)

Lemma checkConditions_all w conditions actions :
  Forall (λ c, V2.checkCondition w c = true) conditions →
  V2.checkConditions mqttBaseTopic w conditions actions
  = (CallCheckCondition <$> conditions)
    ++ CallRunActions actions :: V2.runActions mqttBaseTopic w actions.
Proof.
  induction 1 as [|c cs Hc _ IH]; simpl; [done |]. by rewrite Hc, IH.
Qed.

Lemma checkConditions_first_failing w pre c post actions :
  Forall (λ c, V2.checkCondition w c = true) pre →
  V2.checkCondition w c = false →
  V2.checkConditions mqttBaseTopic w (pre ++ c :: post) actions
  = CallCheckCondition <$> (pre ++ [c]).
Proof.
  intros Hpre Hc. induction Hpre as [|p ps Hp _ IH]; simpl.
  - by rewrite Hc.
  - by rewrite Hp, IH.
Qed.

Lemma checkConditions_runs_iff w conditions actions :
  CallRunActions actions ∈ V2.checkConditions mqttBaseTopic w conditions actions
  ↔ Forall (λ c, V2.checkCondition w c = true) conditions.
Proof.
  induction conditions as [|c cs IH]; simpl.
  - split; [constructor | set_solver].
  - destruct (V2.checkCondition w c) eqn:Hc; simpl.
    + rewrite elem_of_cons, IH, Forall_cons. split.
      * intros [? | ?]; [done | by split].
      * intros [_ ?]. by right.
    + split.
      * intros Hin. apply elem_of_cons in Hin as [? | Hin]; [done |].
        by apply elem_of_nil in Hin.
      * intros Hall. apply Forall_cons in Hall as [Hc' _]. congruence.
Qed.

(** C8: a condition whose entity does not resolve is satisfied; the
    actions of a rule run exactly when every condition of its list is
    satisfied, in particular for the empty list; and the conditions are
    evaluated in order up to the first one that fails, after which
    nothing more is evaluated, run or published. *)
Theorem conditions_fail_open_conjunctive w :
  (∀ c, resolveEntity w (Condition.entity c) = None → V2.checkCondition w c = true)
  ∧ (∀ conditions actions,
       CallRunActions actions
         ∈ V2.runActionsWithConditions mqttBaseTopic w conditions actions
       ↔ Forall (λ c, V2.checkCondition w c = true) conditions)
  ∧ (∀ actions,
       V2.runActionsWithConditions mqttBaseTopic w [] actions
       = CallRunActions actions :: V2.runActions mqttBaseTopic w actions)
  ∧ (∀ conditions actions,
       Forall (λ c, V2.checkCondition w c = true) conditions →
       V2.runActionsWithConditions mqttBaseTopic w conditions actions
       = (CallCheckCondition <$> conditions)
         ++ CallRunActions actions :: V2.runActions mqttBaseTopic w actions)
  ∧ (∀ pre c post actions,
       Forall (λ c, V2.checkCondition w c = true) pre →
       V2.checkCondition w c = false →
       V2.runActionsWithConditions mqttBaseTopic w (pre ++ c :: post) actions
       = CallCheckCondition <$> (pre ++ [c])).
Proof.
  unfold V2.runActionsWithConditions. repeat split.
  - intros c Hc. unfold V2.checkCondition. by rewrite Hc.
  - by apply checkConditions_runs_iff.
  - by apply checkConditions_runs_iff.
  - by apply checkConditions_all.
  - by apply checkConditions_first_failing.
Qed.

(** *** Scheduler: the pending-timer invariant *)

Lemma consistent_loaded rules : timers_consistent (V2.loaded rules).
Proof.
  unfold timers_consistent, V2.loaded; simpl. split; [| split].
  - intros id h Hl. by rewrite lookup_empty in Hl.
  - intros h t Hl. by rewrite lookup_empty in Hl.
  - intros h [t Hl]. by rewrite lookup_empty in Hl.
Qed.

Lemma consistent_emit events st :
  timers_consistent st → timers_consistent (V2.emit events st).
Proof. done. Qed.

Lemma consistent_stopTimeout automationId st :
  timers_consistent st → timers_consistent (V2.stopTimeout automationId st).
Proof.
  intros (H1 & H2 & H3). unfold V2.stopTimeout.
  destruct (V2.timeouts st !! automationId) as [h0|] eqn:E; [| done].
  unfold timers_consistent; simpl. split; [| split].
  - intros id h Hl. apply lookup_delete_Some in Hl as [Hne Hl].
    destruct (H1 _ _ Hl) as (t & Ht & Hid). exists t. split; [| done].
    rewrite lookup_delete_ne; [done |]. intros <-.
    destruct (H1 _ _ E) as (t0 & Ht0 & Hid0). congruence.
  - intros h t Hl. apply lookup_delete_Some in Hl as [Hne Hl].
    rewrite lookup_delete_ne; [by apply H2 |]. intros Heq.
    apply H2 in Hl. rewrite <- Heq in Hl. congruence.
  - intros h [t Hl]. apply lookup_delete_Some in Hl as [_ Hl]. apply H3. by exists t.
Qed.

Lemma consistent_startTimeout automation time st :
  V2.timeouts st !! Automation.id automation = None →
  timers_consistent st → timers_consistent (V2.startTimeout automation time st).
Proof.
  intros Hfree (H1 & H2 & H3). unfold timers_consistent, V2.startTimeout; simpl.
  assert (V2.timers st !! V2.next_handle st = None) as Hfresh.
  { destruct (V2.timers st !! V2.next_handle st) eqn:E; [| done].
    assert (V2.next_handle st < V2.next_handle st)%nat; [| lia].
    apply H3. by rewrite E. }
  split; [| split].
  - intros id h Hl. apply lookup_insert_Some in Hl as [[<- <-] | [Hne Hl]].
    + eexists. split; [apply lookup_insert_eq | done].
    + destruct (H1 _ _ Hl) as (t & Ht & Hid). exists t. split; [| done].
      rewrite lookup_insert_ne; [done |]. intros <-. congruence.
  - intros h t Hl. apply lookup_insert_Some in Hl as [[<- <-] | [Hne Hl]]; simpl.
    + apply lookup_insert_eq.
    + rewrite lookup_insert_ne; [by apply H2 |]. intros Heq.
      apply H2 in Hl. rewrite <- Heq in Hl. congruence.
  - intros h [t Hl]. apply lookup_insert_Some in Hl as [[<- _] | [_ Hl]]; [lia |].
    assert (h < V2.next_handle st)%nat; [| lia]. apply H3. by exists t.
Qed.

Lemma consistent_runAutomationIfMatches w automation update from to st :
  timers_consistent st →
  timers_consistent
    (V2.runAutomationIfMatches mqttBaseTopic w automation update from to st).
Proof.
  intros Hst. unfold V2.runAutomationIfMatches.
  destruct (V2.checkTrigger _ _ _ _) as [[|]|]; [| by apply consistent_stopTimeout | done].
  destruct (V2.timeouts st !! Automation.id automation) eqn:E; [done |].
  destruct (truthy_number _); [by apply consistent_startTimeout | done].
Qed.

Lemma consistent_runAll w autos update from to st :
  timers_consistent st →
  timers_consistent (V2.runAll mqttBaseTopic w autos update from to st).
Proof.
  revert st. induction autos as [|a autos IH]; intros st Hst; simpl; [done |].
  apply IH. by apply consistent_runAutomationIfMatches.
Qed.

Lemma consistent_listener w e update from to st :
  timers_consistent st →
  timers_consistent (V2.listener mqttBaseTopic w e update from to st).
Proof.
  intros Hst. unfold V2.listener, V2.findAndRun.
  destruct (V2.automations st !! e); [by apply consistent_runAll |].
  by destruct (inherited e).
Qed.

Lemma timeoutCallback_expired w h t st :
  V2.timeouts st !! Automation.id (V2.timer_automation t) = Some h →
  V2.timeoutCallback mqttBaseTopic w (V2.timer_automation t) (V2.clearTimeout h st)
  = V2.emit
      (V2.runActionsWithConditions mqttBaseTopic w
         (Automation.condition (V2.timer_automation t))
         (Automation.action (V2.timer_automation t)))
      (V2.stopTimeout (Automation.id (V2.timer_automation t)) st).
Proof. intros E. unfold V2.timeoutCallback, V2.stopTimeout. by rewrite E. Qed.

Lemma consistent_step st i :
  timers_consistent st → timers_consistent (V2.step mqttBaseTopic st i).
Proof.
  intros Hst. destruct i as [w e update from to | w h | |]; simpl.
  - generalize (V2.listeners st). intros n.
    induction n as [|n IH]; simpl; [done |]. by apply consistent_listener.
  - destruct (V2.timers st !! h) as [t|] eqn:E; [| done].
    rewrite timeoutCallback_expired by (by apply Hst).
    apply consistent_emit. by apply consistent_stopTimeout.
  - done.
  - done.
Qed.

Lemma consistent_run st inputs :
  timers_consistent st → timers_consistent (V2.run mqttBaseTopic st inputs).
Proof.
  revert st. induction inputs as [|i inputs IH]; intros st Hst; simpl; [done |].
  apply IH. by apply consistent_step.
Qed.

(** C6: the pending-timer map and the live timers stay consistent from
    the loaded extension through every event, timer expiry, start and
    stop, so that no rule id ever has two live timers; a MATCH for a rule
    whose timer is pending changes nothing; a NEGATIVE_EDGE removes the
    rule's entry and clears its timer; a timer that fires and a timer that
    is cancelled both leave their rule without an entry. *)
Theorem pending_timer_invariant :
  (∀ rules inputs,
     timers_consistent (V2.run mqttBaseTopic (V2.loaded rules) inputs))
  ∧ (∀ st i, timers_consistent st → timers_consistent (V2.step mqttBaseTopic st i))
  ∧ (∀ st h1 h2 t1 t2,
       timers_consistent st →
       V2.timers st !! h1 = Some t1 → V2.timers st !! h2 = Some t2 →
       Automation.id (V2.timer_automation t1) = Automation.id (V2.timer_automation t2) →
       h1 = h2)
  ∧ (∀ w automation update from to st h,
       V2.checkTrigger (Automation.trigger automation) update from to = MATCH →
       V2.timeouts st !! Automation.id automation = Some h →
       V2.runAutomationIfMatches mqttBaseTopic w automation update from to st = st)
  ∧ (∀ w automation update from to st,
       V2.checkTrigger (Automation.trigger automation) update from to = NEGATIVE_EDGE →
       let st' := V2.runAutomationIfMatches mqttBaseTopic w automation update from to st in
       V2.timeouts st' !! Automation.id automation = None
       ∧ ∀ h, V2.timeouts st !! Automation.id automation = Some h →
              V2.timers st' !! h = None)
  ∧ (∀ st w h t,
       timers_consistent st → V2.timers st !! h = Some t →
       let st' := V2.step mqttBaseTopic st (V2.TimerExpiry w h) in
       V2.timeouts st' !! Automation.id (V2.timer_automation t) = None
       ∧ V2.timers st' !! h = None)
  ∧ (∀ automationId st h,
       V2.timeouts st !! automationId = Some h →
       V2.timeouts (V2.stopTimeout automationId st) !! automationId = None
       ∧ V2.timers (V2.stopTimeout automationId st) !! h = None).
Proof.
  split; [| split; [| split; [| split; [| split; [| split]]]]].
  - intros rules inputs. apply consistent_run, consistent_loaded.
  - apply consistent_step.
  - intros st h1 h2 t1 t2 (_ & H2 & _) E1 E2 Hid.
    apply H2 in E1, E2. rewrite Hid in E1. congruence.
  - apply runAutomationIfMatches_pending.
  - intros w automation update from to st E.
    destruct (negative_edge_cancels w automation update from to st E) as (? & ? & _).
    by split.
  - intros st w h t Hst E. cbn zeta. simpl. rewrite E.
    assert (V2.timeouts st !! Automation.id (V2.timer_automation t) = Some h) as Eh
      by (by apply Hst).
    rewrite timeoutCallback_expired by done. simpl. split.
    + apply stopTimeout_lookup.
    + rewrite (stopTimeout_cancels _ _ _ Eh). apply lookup_delete_eq.
  - intros automationId st h E. split; [apply stopTimeout_lookup |].
    rewrite (stopTimeout_cancels _ _ _ E). apply lookup_delete_eq.
Qed.

(** *** Stopping *)

Lemma stopped_ignores_state_changes st inputs :
  V2.listeners st = 0%nat → Forall isStateChange inputs →
  V2.run mqttBaseTopic st inputs = st.
Proof.
  intros Hl Hall. induction Hall as [|i inputs Hi _ IH]; simpl; [done |].
  destruct i; try done. simpl. by rewrite Hl.
Qed.

(** C1, as the code has it: [stop] only unregisters the listener.  It
    leaves the pending-timer map, the live timers and the trace as they
    were; state-change events that follow change nothing; and a timer
    that was pending when [stop] was called still runs its callback when
    it expires, which evaluates the rule's conditions and runs its
    actions. *)
Theorem stop_only_unsubscribes st :
  V2.timeouts (V2.stop st) = V2.timeouts st
  ∧ V2.timers (V2.stop st) = V2.timers st
  ∧ V2.trace (V2.stop st) = V2.trace st
  ∧ (∀ inputs, Forall isStateChange inputs →
       V2.run mqttBaseTopic (V2.stop st) inputs = V2.stop st)
  ∧ (∀ w h t, V2.timers st !! h = Some t →
       V2.trace (V2.step mqttBaseTopic (V2.stop st) (V2.TimerExpiry w h))
       = V2.trace st
         ++ V2.runActionsWithConditions mqttBaseTopic w
              (Automation.condition (V2.timer_automation t))
              (Automation.action (V2.timer_automation t))).
Proof.
  repeat split.
  - intros inputs Hall. by apply stopped_ignores_state_changes.
  - intros w h t E. simpl. by rewrite E.
Qed.

(** *** Rule store *)

Lemma parseEntry_accepts acc automation :
  V2.parseEntry acc automation
  = if accepts automation
    then V2.pushReplicas (ConfigAutomation.trigger automation)
           (toArray (ConfigAutomation.action automation))
           (match ConfigAutomation.condition automation with
            | Some c => toArray c
            | None => []
            end)
           (entitiesOf automation) acc.1 acc.2
    else Ok acc.
Proof.
  unfold V2.parseEntry, accepts, entitiesOf.
  destruct (includes ConfigPlatform.values _); simpl; [| done].
  destruct (truthy_entity _); simpl; [| done].
  destruct (forallb V2.validAction _); simpl; [| done].
  by destruct (forallb V2.validCondition _).
Qed.

(** One iteration of the loop appends to the entity's bucket. *)
Lemma pushReplicas_cons trigger actions conditions entityId rest result drawn :
  V2.pushReplicas trigger actions conditions (entityId :: rest) result drawn
  = if reads_member result entityId
    then Throw "TypeError: result[entityId].push is not a function"
    else V2.pushReplicas trigger actions conditions rest
           (<[entityId := bucket result entityId
                           ++ [Automation.make drawn trigger actions conditions]]> result)
           (S drawn).
Proof.
  simpl. unfold bucket, reads_member.
  destruct (result !! entityId) eqn:E; simpl; [done |].
  by destruct (inherited entityId).
Qed.

Lemma pushReplicas_spec trigger actions conditions entities :
  ∀ result drawn result' drawn',
  V2.pushReplicas trigger actions conditions entities result drawn
  = Ok (result', drawn') →
  drawn' = (drawn + length entities)%nat
  ∧ (∀ e a, a ∈ bucket result e → a ∈ bucket result' e)
  ∧ (∀ k e, entities !! k = Some e →
       Automation.make (drawn + k) trigger actions conditions ∈ bucket result' e)
  ∧ (∀ e a, a ∈ bucket result' e →
       a ∈ bucket result e
       ∨ ∃ k, entities !! k = Some e
              ∧ a = Automation.make (drawn + k) trigger actions conditions).
Proof.
  induction entities as [|x rest IH]; intros result drawn result' drawn' Hrun.
  - simpl in Hrun. injection Hrun as <- <-. repeat split.
    + simpl. lia.
    + done.
    + intros k e Hk. by rewrite lookup_nil in Hk.
    + intros e a Ha. by left.
  - rewrite pushReplicas_cons in Hrun.
    destruct (reads_member result x); [done |].
    apply IH in Hrun as (Hd & Hmono & Hnew & Hold).
    assert (∀ e a, a ∈ bucket result e →
                   a ∈ bucket (<[x := bucket result x
                                  ++ [Automation.make drawn trigger actions conditions]]>
                                 result) e) as Hgrow.
    { intros e a Ha. unfold bucket at 1. destruct (decide (x = e)) as [<- | Hne].
      - rewrite lookup_insert_eq. simpl. apply elem_of_app. by left.
      - by rewrite lookup_insert_ne. }
    split; [simpl; lia |]. split; [| split].
    + intros e a Ha. by apply Hmono, Hgrow.
    + intros [|k] e Hk; simpl in Hk.
      * injection Hk as <-. apply Hmono. unfold bucket at 1.
        rewrite lookup_insert_eq. simpl. rewrite Nat.add_0_r.
        apply elem_of_app. right. by apply list_elem_of_singleton.
      * replace (drawn + S k)%nat with (S drawn + k)%nat by lia. by apply Hnew.
    + intros e a Ha. apply Hold in Ha as [Ha | (k & Hk & ->)].
      * unfold bucket at 1 in Ha. destruct (decide (x = e)) as [<- | Hne].
        -- rewrite lookup_insert_eq in Ha. simpl in Ha.
           apply elem_of_app in Ha as [Ha | Ha]; [by left |].
           apply list_elem_of_singleton in Ha as ->. right. exists 0%nat.
           by rewrite Nat.add_0_r.
        -- rewrite lookup_insert_ne in Ha by done. by left.
      * right. exists (S k). split; [done |]. f_equal. lia.
Qed.

(** C2, as the code has it: an entry that is loaded draws one fresh
    identifier for each entity its trigger names; the replica stored for
    the entity at position [k] carries the [k]-th of them, the rule store
    gains no other rule, and replicas at different positions carry
    different identifiers. *)
Theorem replica_ids_fresh_per_entity automation result drawn result' drawn' :
  accepts automation = true →
  V2.parseEntry (result, drawn) automation = Ok (result', drawn') →
  drawn' = (drawn + length (entitiesOf automation))%nat
  ∧ (∀ k e, entitiesOf automation !! k = Some e →
       replicaOf automation (drawn + k) ∈ bucket result' e)
  ∧ (∀ e a, a ∈ bucket result' e →
       a ∈ bucket result e
       ∨ ∃ k, entitiesOf automation !! k = Some e
              ∧ a = replicaOf automation (drawn + k))
  ∧ (∀ j k, j ≠ k →
       Automation.id (replicaOf automation (drawn + j))
       ≠ Automation.id (replicaOf automation (drawn + k))).
Proof.
  intros Hacc Hrun. rewrite parseEntry_accepts, Hacc in Hrun. simpl in Hrun.
  apply pushReplicas_spec in Hrun as (Hd & _ & Hnew & Hold).
  split; [done |]. split; [done |]. split; [done |].
  intros j k Hne. simpl. lia.
Qed.

Lemma parseEntry_unknown_service acc automation action :
  action ∈ toArray (ConfigAutomation.action automation) →
  Action.service action ∉ ConfigService.values →
  V2.parseEntry acc automation = Ok acc.
Proof.
  intros Hin Hunknown. rewrite parseEntry_accepts.
  assert (accepts automation = false) as ->; [| done].
  unfold accepts.
  assert (forallb V2.validAction (toArray (ConfigAutomation.action automation))
          = false) as ->.
  { apply not_true_is_false. intros Hall.
    rewrite forallb_forall in Hall. apply list_elem_of_In, Hall in Hin.
    by apply includes_true in Hin. }
  by rewrite andb_false_r.
Qed.

Lemma V1_parseEntry_unknown_service result automation action :
  action ∈ toArray (ConfigAutomation.action automation) →
  Action.service action ∉ ConfigService.values_v1 →
  V1.parseEntry result automation = Ok result.
Proof.
  intros Hin Hunknown. unfold V1.parseEntry.
  destruct (includes ConfigPlatform.values_v1 _); simpl; [| done].
  destruct (truthy_entity _); simpl; [| done].
  assert (forallb V1.validAction (toArray (ConfigAutomation.action automation))
          = false) as ->; [| done].
  apply not_true_is_false. intros Hall.
  rewrite forallb_forall in Hall. apply list_elem_of_In, Hall in Hin.
  by apply includes_true in Hin.
Qed.

Lemma reduce_app pre post acc :
  V2.reduce (pre ++ post) acc
  = match V2.reduce pre acc with
    | Ok acc' => V2.reduce post acc'
    | Throw e => Throw e
    end.
Proof.
  revert acc. induction pre as [|a pre IH]; intros acc; simpl; [done |].
  by destruct (V2.parseEntry acc a).
Qed.

Lemma V1_reduce_app pre post result :
  V1.reduce (pre ++ post) result
  = match V1.reduce pre result with
    | Ok result' => V1.reduce post result'
    | Throw e => Throw e
    end.
Proof.
  revert result. induction pre as [|a pre IH]; intros result; simpl; [done |].
  by destruct (V1.parseEntry result a).
Qed.

(** An entry with an unknown service contributes nothing: the rule store
    is the one the configuration without the entry yields, in both
    variants. *)
Lemma unknown_service_entry_dropped pre automation post action drawn :
  action ∈ toArray (ConfigAutomation.action automation) →
  Action.service action ∉ ConfigService.values →
  V2.parseConfig (pre ++ automation :: post) drawn
  = V2.parseConfig (pre ++ post) drawn
  ∧ V1.parseConfig (pre ++ automation :: post) = V1.parseConfig (pre ++ post).
Proof.
  intros Hin Hunknown. unfold V2.parseConfig, V1.parseConfig. split.
  - rewrite !reduce_app. destruct (V2.reduce pre (∅, drawn)) as [acc|]; [| done].
    simpl. by rewrite (parseEntry_unknown_service _ _ _ Hin Hunknown).
  - rewrite !V1_reduce_app. destruct (V1.reduce pre ∅) as [result|]; [| done].
    simpl. rewrite (V1_parseEntry_unknown_service _ _ _ Hin); [done |].
    intros Hv1. apply Hunknown.
    change ConfigService.values
      with (ConfigService.values_v1 ++ [ConfigService.CUSTOM]).
    apply elem_of_app. by left.
Qed.

Lemma pushReplicas_returns trigger actions conditions entities :
  Forall (λ e, inherited e = false) entities →
  ∀ result drawn,
  ∃ r, V2.pushReplicas trigger actions conditions entities result drawn = Ok r.
Proof.
  induction 1 as [|x rest Hx _ IH]; intros result drawn.
  - by eexists.
  - rewrite pushReplicas_cons. unfold reads_member. rewrite Hx, andb_false_r. apply IH.
Qed.

(** No entry makes [parseConfig] throw as long as no trigger names an
    entity after a member that plain objects inherit. *)
Lemma parseConfig_returns automations drawn :
  Forall (λ a, Forall (λ e, inherited e = false) (entitiesOf a)) automations →
  ∃ r, V2.parseConfig automations drawn = Ok r.
Proof.
  unfold V2.parseConfig. generalize (∅ : gmap string (list Automation.t), drawn).
  intros acc Hall. revert acc.
  induction Hall as [|a rest Ha _ IH]; intros acc; simpl; [by eexists |].
  rewrite parseEntry_accepts. destruct (accepts a); [| apply IH].
  destruct (pushReplicas_returns (ConfigAutomation.trigger a)
              (toArray (ConfigAutomation.action a))
              (match ConfigAutomation.condition a with
               | Some c => toArray c
               | None => []
               end) _ Ha acc.1 acc.2) as [r ->].
  apply IH.
Qed.

(** An accepted entry whose first entity carries an inherited name makes
    [parseConfig] throw when no earlier entry names that entity. *)
Lemma parseEntry_throws automation e rest result drawn :
  accepts automation = true →
  entitiesOf automation = e :: rest →
  inherited e = true → result !! e = None →
  V2.parseEntry (result, drawn) automation
  = Throw "TypeError: result[entityId].push is not a function".
Proof.
  intros Hacc He Hin Hnone. rewrite parseEntry_accepts, Hacc, He. simpl.
  by rewrite Hnone, Hin.
Qed.

End Properties.

(** ** Further properties of the code *)

Section Behaviour.

Context {coercion : JsCoercion}.
Variable mqttBaseTopic : string.

(** *** Trigger matcher: incomplete events and ranges *)

(** X1: a state-like or numeric trigger whose attribute is missing from
    [update], [from] or [to] yields NO_MATCH, and the event leaves the
    extension as it was. *)
Theorem missing_attribute_no_match trig (update from to : Update) :
  isStateLike (Trigger.platform trig)
  ∨ Trigger.platform trig = ConfigPlatform.NUMERIC_STATE →
  update !! watchedAttribute trig = None
  ∨ from !! watchedAttribute trig = None
  ∨ to !! watchedAttribute trig = None →
  V2.checkTrigger trig update from to = NO_MATCH
  ∧ ∀ w automation st,
      Automation.trigger automation = trig →
      V2.runAutomationIfMatches mqttBaseTopic w automation update from to st = st.
Proof.
  intros Hp Hmiss.
  assert (negb (hasOwnProperty update (watchedAttribute trig))
          || negb (hasOwnProperty from (watchedAttribute trig))
          || negb (hasOwnProperty to (watchedAttribute trig)) = true) as Hguard.
  { unfold hasOwnProperty.
    destruct Hmiss as [E | [E | E]]; rewrite E;
      rewrite (bool_decide_eq_false_2 (is_Some None)) by (by intros [? ?]);
      simpl; by rewrite ?orb_true_r. }
  assert (V2.checkTrigger trig update from to = NO_MATCH) as E.
  { destruct Hp as [Hp | Hp].
    - rewrite (checkTrigger_stateLike _ _ _ _ Hp). unfold V2.checkStateLike.
      replace (watchedAttribute trig) with (effectiveAttribute trig) in Hguard.
      + by rewrite Hguard.
      + unfold watchedAttribute. by destruct Hp as [-> | [-> | ->]].
    - unfold watchedAttribute in Hguard. rewrite Hp in Hguard. simpl in Hguard.
      unfold V2.checkTrigger. rewrite Hp. simpl. by rewrite Hguard. }
  split; [done |]. intros w automation st <-.
  unfold V2.runAutomationIfMatches. by rewrite E.
Qed.

Lemma numeric_range_vetoes a b (fromv tov : option Value) x y :
  ToNumber fromv = Some x → ToNumber tov = Some y →
  V2.checkAbove (Some a) fromv tov (V2.checkBelow (Some b) fromv tov MATCH) ≠ MATCH.
Proof.
  intros Hx Hy. unfold V2.checkAbove, V2.checkBelow, js_lt, js_ge, js_gt, js_le.
  rewrite Hx, Hy.
  destruct (Z.ltb_spec y a); [done |]. destruct (Z.leb_spec a x); [done |].
  destruct (Z.ltb_spec b y); [done |]. destruct (Z.leb_spec x b); [done |]. lia.
Qed.

(** X2: a numeric trigger with both [above] and [below] set never yields
    MATCH on an event whose old and new values are numbers, and the first
    variant never runs the actions of such a rule: the old value would
    have to lie below [above] and above [below] while the new one lies
    between them. *)
Theorem numeric_range_never_matches trig a b (update from to : Update) x y :
  Trigger.platform trig = ConfigPlatform.NUMERIC_STATE →
  Trigger.above trig = Some a → Trigger.below trig = Some b →
  ToNumber (from !! watchedAttribute trig) = Some x →
  ToNumber (to !! watchedAttribute trig) = Some y →
  V2.checkTrigger trig update from to ≠ MATCH
  ∧ ∀ w actions,
      V1.runAutomationIfMatches mqttBaseTopic w
        (V1.Automation.make trig actions) update from to = [].
Proof.
  unfold watchedAttribute. intros Hp Ha Hb. rewrite Hp. simpl. intros Hx Hy. split.
  - unfold V2.checkTrigger. rewrite Hp, Ha, Hb. simpl.
    destruct (negb _ || negb _ || negb _); [done |].
    destruct (strict_eq _ _); [done |]. by eapply numeric_range_vetoes.
  - intros w actions. unfold V1.runAutomationIfMatches. simpl.
    rewrite Hp, Ha, Hb. simpl.
    destruct (negb _ || negb _ || negb _); [done |].
    destruct (strict_eq _ _); [done |].
    unfold js_lt, js_ge, js_gt, js_le. rewrite Hx, Hy.
    destruct (Z.leb_spec a x); [done |]. destruct (Z.ltb_spec y a); [done |].
    destruct (Z.leb_spec x b); [done |]. destruct (Z.ltb_spec b y); [done |].
    simpl. lia.
Qed.

(** *** Condition evaluator *)

(** X3: a numeric condition on a resolved entity is satisfied exactly
    when the live value respects the configured bounds, [above] as a
    lower and [below] as an upper bound, both inclusive; when the live
    value is missing or not a number the condition is satisfied. *)
Theorem numeric_condition_bounds w c entity :
  Condition.platform c = ConfigPlatform.NUMERIC_STATE →
  resolveEntity w (Condition.entity c) = Some entity →
  (∀ x, ToNumber (state_get w entity !! conditionAttribute c) = Some x →
        (V2.checkCondition w c = true
         ↔ (∀ a, Condition.above c = Some a → a ≤ x)
           ∧ (∀ b, Condition.below c = Some b → x ≤ b)))
  ∧ (ToNumber (state_get w entity !! conditionAttribute c) = None →
     V2.checkCondition w c = true).
Proof.
  intros Hp Hr. unfold conditionAttribute, V2.checkCondition.
  rewrite Hp, Hr. simpl. unfold js_lt, js_gt. split.
  - intros x ->. destruct (Condition.above c) as [a|], (Condition.below c) as [b|].
    + destruct (Z.ltb_spec x a).
      { split; [done |]. intros [Ha _]. specialize (Ha a eq_refl). lia. }
      destruct (Z.ltb_spec b x).
      { split; [done |]. intros [_ Hb]. specialize (Hb b eq_refl). lia. }
      split; [| done]. intros _. split; intros ? [= <-]; lia.
    + destruct (Z.ltb_spec x a).
      { split; [done |]. intros [Ha _]. specialize (Ha a eq_refl). lia. }
      split; [| done]. intros _. split; [intros ? [= <-]; lia | done].
    + destruct (Z.ltb_spec b x).
      { split; [done |]. intros [_ Hb]. specialize (Hb b eq_refl). lia. }
      split; [| done]. intros _. split; [done | intros ? [= <-]; lia].
    + done.
  - intros ->. by destruct (Condition.above c), (Condition.below c).
Qed.

(** X4: a state-like condition on a resolved entity is satisfied exactly
    when the live value of its attribute is its expected [state]; a
    missing attribute satisfies only a condition without expected
    state. *)
Theorem state_condition_equality w c entity :
  isStateLike (Condition.platform c) →
  resolveEntity w (Condition.entity c) = Some entity →
  inherited (conditionAttribute c) = false →
  V2.checkCondition w c = true
  ↔ state_get w entity !! conditionAttribute c = Condition.state c.
Proof.
  intros Hp Hr. unfold conditionAttribute, V2.checkCondition, reads_member.
  rewrite Hr.
  unfold isStateLike, ConfigPlatform.STATE, ConfigPlatform.STATE_L1,
    ConfigPlatform.STATE_L2 in Hp.
  destruct Hp as [Hp | [Hp | Hp]]; rewrite Hp; simpl; intros ->;
    rewrite andb_false_r; simpl;
    (destruct (strict_eq _ _) eqn:E; simpl;
     [apply strict_eq_true in E | apply strict_eq_false in E]; by split).
Qed.

(** *** Action runner: what is published *)

(** X5: [toggle] on a resolved target always publishes exactly one
    command, OFF when the current state is ON and ON in every other case,
    a missing current state included; both variants agree. *)
Theorem toggle_always_publishes w action destination :
  Action.service action = ConfigService.TOGGLE →
  resolveEntity w (Action.entity action) = Some destination →
  let flipped :=
    if bool_decide (state_get w destination !! "state" = Some (VStr StateOnOff.ON))
    then StateOnOff.OFF else StateOnOff.ON in
  V2.runAction mqttBaseTopic w action
  = [Publish (setTopic mqttBaseTopic destination) (DataState (Some (VStr flipped)))]
  ∧ V1.runAction mqttBaseTopic w action
    = [Publish (setTopic mqttBaseTopic destination) (DataState (Some (VStr flipped)))].
Proof.
  intros Hs Hr. cbn zeta.
  unfold V2.runAction, V1.runAction, V2.newStateOf, V1.newStateOf, setTopic.
  rewrite Hr, Hs. simpl. unfold strict_eq.
  destruct (decide (state_get w destination !! "state" = Some (VStr StateOnOff.ON)))
    as [E | E].
  - rewrite E. split; reflexivity.
  - rewrite !(bool_decide_eq_false_2 _ E). simpl. by split.
Qed.

(** X6: [turn_on] and [turn_off] on a resolved target publish their
    target state exactly when the current state differs from it, a
    missing current state included; both variants agree. *)
Theorem switch_publishes_on_change w action destination target :
  (Action.service action = ConfigService.TURN_ON ∧ target = StateOnOff.ON)
  ∨ (Action.service action = ConfigService.TURN_OFF ∧ target = StateOnOff.OFF) →
  resolveEntity w (Action.entity action) = Some destination →
  V2.runAction mqttBaseTopic w action
  = (if bool_decide (state_get w destination !! "state" = Some (VStr target))
     then []
     else [Publish (setTopic mqttBaseTopic destination)
             (DataState (Some (VStr target)))])
  ∧ V1.runAction mqttBaseTopic w action
    = (if bool_decide (state_get w destination !! "state" = Some (VStr target))
       then []
       else [Publish (setTopic mqttBaseTopic destination)
               (DataState (Some (VStr target)))]).
Proof.
  intros Hs Hr. unfold V2.runAction, V1.runAction, setTopic. rewrite Hr.
  destruct Hs as [[-> ->] | [-> ->]]; simpl; unfold strict_eq;
    by destruct (bool_decide _).
Qed.

Lemma V2_runAction_at_most_one w action :
  (length (V2.runAction mqttBaseTopic w action) ≤ 1)%nat.
Proof.
  unfold V2.runAction. destruct (resolveEntity w _); simpl; [| lia].
  destruct (String.eqb _ _); simpl; [lia |]. destruct (strict_eq _ _); simpl; lia.
Qed.

Lemma V2_runAction_custom w action :
  Action.service action = ConfigService.CUSTOM →
  is_Some (resolveEntity w (Action.entity action)) →
  length (V2.runAction mqttBaseTopic w action) = 1%nat.
Proof. intros Hs [d Hr]. unfold V2.runAction. by rewrite Hr, Hs. Qed.

(** X7: [runActions] handles its actions one by one and in order: an
    action whose target does not resolve is skipped without effect on the
    others, no action publishes more than once, and a list of custom
    actions on resolved targets publishes once per action whatever the
    current states are. *)
Theorem runActions_one_by_one w :
  (∀ pre action post,
     resolveEntity w (Action.entity action) = None →
     V2.runActions mqttBaseTopic w (pre ++ action :: post)
     = V2.runActions mqttBaseTopic w (pre ++ post)
     ∧ V1.runActions mqttBaseTopic w (pre ++ action :: post)
       = V1.runActions mqttBaseTopic w (pre ++ post))
  ∧ (∀ actions,
       (length (V2.runActions mqttBaseTopic w actions) ≤ length actions)%nat)
  ∧ (∀ actions,
       Forall (λ a, Action.service a = ConfigService.CUSTOM
                    ∧ is_Some (resolveEntity w (Action.entity a))) actions →
       length (V2.runActions mqttBaseTopic w actions) = length actions).
Proof.
  split; [| split].
  - intros pre action post Hr. rewrite !V2_runActions_app, !V1_runActions_app.
    simpl. unfold V2.runAction, V1.runAction. by rewrite Hr.
  - induction actions as [|a actions IH]; simpl; [lia |].
    rewrite length_app. pose proof (V2_runAction_at_most_one w a). lia.
  - induction 1 as [|a actions [Hs Hr] _ IH]; simpl; [done |].
    by rewrite length_app, IH, V2_runAction_custom.
Qed.

(** *** Scheduler: delayed firing *)


(** X9: when an idle rule with a delay matches and a negative edge
    follows before the timer expires, nothing is run and the pending-timer
    map and the live timers are as they were before the match. *)
Theorem match_then_negative_edge w1 w2 automation
    (update1 from1 to1 update2 from2 to2 : Update) st time :
  timers_consistent st →
  V2.checkTrigger (Automation.trigger automation) update1 from1 to1 = MATCH →
  V2.checkTrigger (Automation.trigger automation) update2 from2 to2 = NEGATIVE_EDGE →
  V2.timeouts st !! Automation.id automation = None →
  Trigger.for_ (Automation.trigger automation) = Some time → time ≠ 0 →
  let st' :=
    V2.runAutomationIfMatches mqttBaseTopic w2 automation update2 from2 to2
      (V2.runAutomationIfMatches mqttBaseTopic w1 automation update1 from1 to1 st) in
  V2.timeouts st' = V2.timeouts st
  ∧ V2.timers st' = V2.timers st
  ∧ V2.trace st' = V2.trace st.
Proof.
  intros (_ & _ & H3) E1 E2 Hidle Hfor Hnz. cbn zeta.
  assert (V2.timers st !! V2.next_handle st = None) as Hfresh.
  { destruct (V2.timers st !! V2.next_handle st) eqn:E; [| done].
    assert (V2.next_handle st < V2.next_handle st)%nat; [| lia].
    apply H3. by rewrite E. }
  rewrite (runAutomationIfMatches_negative_edge _ _ _ _ _ _ _ E2).
  assert (V2.runAutomationIfMatches mqttBaseTopic w1 automation update1 from1 to1 st
          = V2.startTimeout automation time st) as ->.
  { unfold V2.runAutomationIfMatches. rewrite E1, Hidle, Hfor. simpl.
    by rewrite (proj2 (Z.eqb_neq time 0) Hnz). }
  unfold V2.stopTimeout, V2.startTimeout. simpl. rewrite lookup_insert_eq. simpl.
  by rewrite !delete_insert_id.
Qed.

(** *** Invariants of a running extension *)

Lemma stopTimeout_automations automationId st :
  V2.automations (V2.stopTimeout automationId st) = V2.automations st.
Proof. unfold V2.stopTimeout. by destruct (V2.timeouts st !! automationId). Qed.

(** What holds of every live timer if it held before and holds of the
    timers a rule of [autos] may start. *)
Lemma runAll_timers (P : V2.Timer → Prop) w autos (update from to : Update) st :
  (∀ a, a ∈ autos →
        truthy_number (Trigger.for_ (Automation.trigger a)) = true →
        P {| V2.timer_automation := a;
             V2.timer_delay := default 0 (Trigger.for_ (Automation.trigger a)) * 1000 |}) →
  (∀ h t, V2.timers st !! h = Some t → P t) →
  let st' := V2.runAll mqttBaseTopic w autos update from to st in
  V2.automations st' = V2.automations st
  ∧ ∀ h t, V2.timers st' !! h = Some t → P t.
Proof.
  cbn zeta. revert st. induction autos as [|a autos IH]; intros st Hnew Hold; simpl.
  - done.
  - assert (V2.automations
              (V2.runAutomationIfMatches mqttBaseTopic w a update from to st)
            = V2.automations st
            ∧ ∀ h t, V2.timers
                       (V2.runAutomationIfMatches mqttBaseTopic w a update from to st)
                     !! h = Some t → P t) as [Ha Ht].
    { unfold V2.runAutomationIfMatches.
      destruct (V2.checkTrigger _ _ _ _) as [[|]|]; [| | done].
      - destruct (V2.timeouts st !! Automation.id a); [done |].
        destruct (truthy_number _) eqn:Hfor; [| done].
        unfold V2.startTimeout; simpl. split; [done |].
        intros h t Hl. apply lookup_insert_Some in Hl as [[_ <-] | [_ Hl]].
        + apply Hnew; [apply list_elem_of_here | done].
        + by eapply Hold.
      - split; [apply stopTimeout_automations |].
        unfold V2.stopTimeout. destruct (V2.timeouts st !! Automation.id a); [| done].
        simpl. intros h t Hl. apply lookup_delete_Some in Hl as [_ Hl]. by eapply Hold. }
    destruct (IH (V2.runAutomationIfMatches mqttBaseTopic w a update from to st))
      as [Ha' Ht']; [| done |].
    + intros a' Hin. apply Hnew. by apply list_elem_of_further.
    + split; [congruence | done].
Qed.

Lemma listener_timers (P : V2.Timer → Prop) w e (update from to : Update) st :
  (∀ e a, a ∈ bucket (V2.automations st) e →
          truthy_number (Trigger.for_ (Automation.trigger a)) = true →
          P {| V2.timer_automation := a;
               V2.timer_delay := default 0 (Trigger.for_ (Automation.trigger a)) * 1000 |}) →
  (∀ h t, V2.timers st !! h = Some t → P t) →
  V2.automations (V2.listener mqttBaseTopic w e update from to st) = V2.automations st
  ∧ ∀ h t, V2.timers (V2.listener mqttBaseTopic w e update from to st) !! h = Some t →
           P t.
Proof.
  intros Hnew Hold. unfold V2.listener, V2.findAndRun.
  destruct (V2.automations st !! e) as [autos|] eqn:E.
  - apply runAll_timers; [| done].
    intros a Hin. apply (Hnew e). unfold bucket. by rewrite E.
  - by destruct (inherited e).
Qed.

Lemma step_timers (P : V2.Timer → Prop) st i :
  (∀ e a, a ∈ bucket (V2.automations st) e →
          truthy_number (Trigger.for_ (Automation.trigger a)) = true →
          P {| V2.timer_automation := a;
               V2.timer_delay := default 0 (Trigger.for_ (Automation.trigger a)) * 1000 |}) →
  (∀ h t, V2.timers st !! h = Some t → P t) →
  V2.automations (V2.step mqttBaseTopic st i) = V2.automations st
  ∧ ∀ h t, V2.timers (V2.step mqttBaseTopic st i) !! h = Some t → P t.
Proof.
  intros Hnew Hold. destruct i as [w e update from to | w h0 | |]; simpl.
  - generalize (V2.listeners st). intros n.
    induction n as [|n [IHa IHt]]; simpl; [done |].
    destruct (listener_timers P w e update from to
                (Nat.iter n (V2.listener mqttBaseTopic w e update from to) st))
      as [Ha Ht]; [by rewrite IHa | done |].
    split; [congruence | done].
  - destruct (V2.timers st !! h0) as [t0|] eqn:E; [| done]. simpl. split; [done |].
    intros h t Hl. apply lookup_delete_Some in Hl as [_ Hl]. by eapply Hold.
  - done.
  - done.
Qed.

Lemma run_timers (P : V2.Timer → Prop) inputs st :
  (∀ e a, a ∈ bucket (V2.automations st) e →
          truthy_number (Trigger.for_ (Automation.trigger a)) = true →
          P {| V2.timer_automation := a;
               V2.timer_delay := default 0 (Trigger.for_ (Automation.trigger a)) * 1000 |}) →
  (∀ h t, V2.timers st !! h = Some t → P t) →
  V2.automations (V2.run mqttBaseTopic st inputs) = V2.automations st
  ∧ ∀ h t, V2.timers (V2.run mqttBaseTopic st inputs) !! h = Some t → P t.
Proof.
  revert st. induction inputs as [|i inputs IH]; intros st Hnew Hold; simpl; [done |].
  destruct (step_timers P st i Hnew Hold) as [Ha Ht].
  destruct (IH (V2.step mqttBaseTopic st i)) as [Ha' Ht']; [| done |].
  - rewrite Ha. apply Hnew.
  - split; [congruence | done].
Qed.


(** X11: when no stored rule has a truthy [for], no timer is ever
    started, whatever events arrive. *)
Theorem no_delay_no_timer rules inputs :
  (∀ e a, a ∈ bucket rules e →
          truthy_number (Trigger.for_ (Automation.trigger a)) = false) →
  V2.timers (V2.run mqttBaseTopic (V2.loaded rules) inputs) = ∅.
Proof.
  intros Hnone. apply map_empty. intros h.
  destruct (V2.timers _ !! h) as [t|] eqn:E; [| done]. exfalso.
  destruct (run_timers (λ _, False) inputs (V2.loaded rules)) as [_ Hno].
  - simpl. intros e a Hin Hfor. rewrite (Hnone e a Hin) in Hfor. done.
  - simpl. intros h' t' Hl. by rewrite lookup_empty in Hl.
  - by eapply Hno.
Qed.

Lemma runAction_set_topic w action :
  Forall (publishesToSetTopic mqttBaseTopic) (V2.runAction mqttBaseTopic w action).
Proof.
  unfold V2.runAction. destruct (resolveEntity w _) as [d|]; [| constructor].
  destruct (String.eqb _ _); [| destruct (strict_eq _ _)];
    repeat constructor; by exists d.
Qed.

Lemma runActionsWithConditions_set_topic w conditions actions :
  Forall (publishesToSetTopic mqttBaseTopic)
    (V2.runActionsWithConditions mqttBaseTopic w conditions actions).
Proof.
  unfold V2.runActionsWithConditions.
  induction conditions as [|c cs IH]; simpl.
  - constructor; [done |]. induction actions as [|a actions IHa]; simpl.
    + constructor.
    + apply Forall_app. split; [apply runAction_set_topic | done].
  - constructor; [done |]. by destruct (V2.checkCondition w c).
Qed.

Lemma emit_set_topic w conditions actions st :
  Forall (publishesToSetTopic mqttBaseTopic) (V2.trace st) →
  Forall (publishesToSetTopic mqttBaseTopic)
    (V2.trace (V2.emit (V2.runActionsWithConditions mqttBaseTopic w conditions actions) st)).
Proof.
  intros Hst. simpl. apply Forall_app. split; [done |].
  apply runActionsWithConditions_set_topic.
Qed.

Lemma runAll_set_topic w autos (update from to : Update) st :
  Forall (publishesToSetTopic mqttBaseTopic) (V2.trace st) →
  Forall (publishesToSetTopic mqttBaseTopic)
    (V2.trace (V2.runAll mqttBaseTopic w autos update from to st)).
Proof.
  revert st. induction autos as [|a autos IH]; intros st Hst; simpl; [done |].
  apply IH. unfold V2.runAutomationIfMatches.
  destruct (V2.checkTrigger _ _ _ _) as [[|]|]; [| by rewrite stopTimeout_trace | done].
  destruct (V2.timeouts st !! Automation.id a); [done |].
  destruct (truthy_number _); [done | by apply emit_set_topic].
Qed.

(** X12: every message the extension ever publishes goes to the command
    topic [<base topic>/<name>/set] of an entity. *)
Theorem publishes_only_to_set_topics rules inputs :
  Forall (publishesToSetTopic mqttBaseTopic)
    (V2.trace (V2.run mqttBaseTopic (V2.loaded rules) inputs)).
Proof.
  assert (Forall (publishesToSetTopic mqttBaseTopic) (V2.trace (V2.loaded rules)))
    as Hst by constructor.
  revert Hst. generalize (V2.loaded rules). intros st.
  revert st. induction inputs as [|i inputs IH]; intros st Hst; simpl; [done |].
  apply IH. destruct i as [w e update from to | w h | |]; simpl; [| | done | done].
  - generalize (V2.listeners st). intros n.
    induction n as [|n IHn]; simpl; [done |].
    unfold V2.listener at 1, V2.findAndRun.
    destruct (V2.automations _ !! e); [by apply runAll_set_topic |].
    by destruct (inherited e).
  - destruct (V2.timers st !! h) as [t|]; [| done].
    unfold V2.timeoutCallback. by apply emit_set_topic.
Qed.

(** *** Rule store: what [parseConfig] builds *)

Lemma bucket_empty e : bucket ∅ e = [].
Proof. unfold bucket. by rewrite lookup_empty. Qed.

Lemma bucket_insert (rules : gmap string (list Automation.t)) x l e :
  bucket (<[x := l]> rules) e = if decide (e = x) then l else bucket rules e.
Proof.
  unfold bucket. destruct (decide (e = x)) as [-> | Hne].
  - by rewrite lookup_insert_eq.
  - by rewrite lookup_insert_ne.
Qed.

Lemma reduce_unchanged pre automation post acc :
  (∀ acc, V2.parseEntry acc automation = Ok acc) →
  V2.reduce (pre ++ automation :: post) acc = V2.reduce (pre ++ post) acc.
Proof.
  intros Hskip. rewrite !reduce_app. destruct (V2.reduce pre acc); [| done].
  simpl. by rewrite Hskip.
Qed.

(** X13: an entry is dropped, and the configuration loads as if it were
    absent, when its trigger platform is not recognised, when its trigger
    has no entity or an empty one, or when one of its conditions lacks an
    entity or has an unrecognised platform; an entry whose trigger names
    an empty list of entities passes the checks and stores nothing. *)
Theorem rejected_entry_dropped pre automation post drawn :
  Trigger.platform (ConfigAutomation.trigger automation) ∉ ConfigPlatform.values
  ∨ truthy_entity (Trigger.entity (ConfigAutomation.trigger automation)) = false
  ∨ (∃ cs c, ConfigAutomation.condition automation = Some cs
             ∧ c ∈ toArray cs
             ∧ (Condition.entity c = ""
                ∨ Condition.platform c ∉ ConfigPlatform.values))
  ∨ Trigger.entity (ConfigAutomation.trigger automation) = Some (Many []) →
  V2.parseConfig (pre ++ automation :: post) drawn
  = V2.parseConfig (pre ++ post) drawn.
Proof.
  intros Hwhy. apply reduce_unchanged. intros acc. rewrite parseEntry_accepts.
  destruct Hwhy as [Hp | [He | [(cs & c & Hcs & Hin & Hc) | Hempty]]].
  - unfold accepts. apply includes_false in Hp. by rewrite Hp.
  - unfold accepts. by rewrite He, andb_false_r.
  - unfold accepts. rewrite Hcs.
    assert (forallb V2.validCondition (toArray cs) = false) as ->.
    { apply not_true_is_false. intros Hall. rewrite forallb_forall in Hall.
      apply list_elem_of_In, Hall in Hin. unfold V2.validCondition in Hin.
      apply andb_prop in Hin as [Hent Hplat]. destruct Hc as [Hc | Hc].
      - rewrite Hc in Hent. done.
      - by apply includes_true in Hplat. }
    by rewrite andb_false_r.
  - unfold entitiesOf. rewrite Hempty. simpl. destruct acc.
    by destruct (accepts automation).
Qed.

Lemma bucket_snoc_lookup (rules : gmap string (list Automation.t)) x new e i a :
  bucket (<[x := bucket rules x ++ [new]]> rules) e !! i = Some a →
  bucket rules e !! i = Some a
  ∨ (e = x ∧ i = length (bucket rules x) ∧ a = new).
Proof.
  rewrite bucket_insert. destruct (decide (e = x)) as [-> | Hne]; [| by left].
  intros Hl. apply lookup_app_Some in Hl as [Hl | [Hlen Hl]]; [by left |].
  right. apply list_lookup_singleton_Some in Hl as [Hi ->].
  split; [done |]. split; [lia | done].
Qed.

Lemma pushReplicas_fresh trigger actions conditions entities lo :
  ∀ result drawn result' drawn',
  idsFresh result lo drawn → (lo ≤ drawn)%nat →
  V2.pushReplicas trigger actions conditions entities result drawn
  = Ok (result', drawn') →
  idsFresh result' lo drawn' ∧ (drawn ≤ drawn')%nat.
Proof.
  induction entities as [|x rest IH];
    intros result drawn result' drawn' Hfresh Hlo Hrun.
  - simpl in Hrun. injection Hrun as <- <-. by split.
  - rewrite pushReplicas_cons in Hrun.
    destruct (reads_member result x); [done |].
    apply IH in Hrun as [Hres Hle]; [split; [done | lia] | | lia].
    destruct Hfresh as [Hrange Huniq]. split.
    + intros e a Hin. rewrite bucket_insert in Hin.
      destruct (decide (e = x)) as [-> | Hne].
      * apply elem_of_app in Hin as [Hin | Hin].
        -- apply Hrange in Hin. lia.
        -- apply list_elem_of_singleton in Hin as ->. simpl. lia.
      * apply Hrange in Hin. lia.
    + intros e1 e2 i j a b Ha Hb Hid.
      apply bucket_snoc_lookup in Ha as [Ha | (-> & -> & ->)];
        apply bucket_snoc_lookup in Hb as [Hb | (-> & -> & ->)].
      * by eapply Huniq.
      * apply list_elem_of_lookup_2, Hrange in Ha. simpl in Hid. lia.
      * apply list_elem_of_lookup_2, Hrange in Hb. simpl in Hid. lia.
      * done.
Qed.

Lemma reduce_fresh automations lo :
  ∀ result drawn result' drawn',
  idsFresh result lo drawn → (lo ≤ drawn)%nat →
  V2.reduce automations (result, drawn) = Ok (result', drawn') →
  idsFresh result' lo drawn' ∧ (drawn ≤ drawn')%nat.
Proof.
  induction automations as [|a rest IH];
    intros result drawn result' drawn' Hfresh Hlo Hrun; simpl in Hrun.
  - injection Hrun as <- <-. by split.
  - rewrite parseEntry_accepts in Hrun. destruct (accepts a).
    + simpl in Hrun.
      destruct (V2.pushReplicas _ _ _ _ result drawn) as [[r1 d1]|] eqn:E; [| done].
      apply (pushReplicas_fresh _ _ _ _ lo) in E as [H1 Hle1]; [| done | done].
      apply IH in Hrun as [H2 Hle2]; [split; [done | lia] | done | lia].
    + by apply IH in Hrun.
Qed.

(** X14: when [parseConfig] returns, every stored rule carries an
    identifier drawn during the call, and no two stored rules, in the same
    or in different buckets, carry the same identifier. *)
Theorem rule_ids_unique automations drawn rules drawn' :
  V2.parseConfig automations drawn = Ok (rules, drawn') →
  (drawn ≤ drawn')%nat ∧ idsFresh rules drawn drawn'.
Proof.
  intros Hrun. unfold V2.parseConfig in Hrun.
  apply (reduce_fresh _ drawn) in Hrun as [Hfresh Hle]; [by split | | done].
  split.
  - intros e a Hin. rewrite bucket_empty in Hin. by apply elem_of_nil in Hin.
  - intros e1 e2 i j a b Ha. by rewrite bucket_empty in Ha.
Qed.

Lemma accepts_valid automation id :
  accepts automation = true →
  validRule (replicaOf automation id)
  ∧ ∃ ent, Trigger.entity (ConfigAutomation.trigger automation) = Some ent
           ∧ entitiesOf automation = toArray ent.
Proof.
  unfold accepts, validRule, entitiesOf. intros Hacc.
  apply andb_prop in Hacc as [Hacc Hconds]. apply andb_prop in Hacc as [Hacc Hacts].
  apply andb_prop in Hacc as [Hplat Hent]. split; [split; [| split] |]; simpl.
  - by apply includes_true.
  - apply Forall_forall. intros act Hin. rewrite forallb_forall in Hacts.
    apply list_elem_of_In, Hacts in Hin. by apply includes_true.
  - apply Forall_forall. intros c Hin. rewrite forallb_forall in Hconds.
    apply list_elem_of_In, Hconds in Hin. unfold V2.validCondition in Hin.
    apply andb_prop in Hin as [Hne Hp]. split.
    + intros Hc. by rewrite Hc in Hne.
    + by apply includes_true.
  - destruct (Trigger.entity (ConfigAutomation.trigger automation)) as [ent|];
      [by exists ent | done].
Qed.

Lemma reduce_valid automations :
  ∀ result drawn result' drawn',
  (∀ e a, a ∈ bucket result e →
          validRule a
          ∧ ∃ ent, Trigger.entity (Automation.trigger a) = Some ent
                   ∧ e ∈ toArray ent) →
  V2.reduce automations (result, drawn) = Ok (result', drawn') →
  ∀ e a, a ∈ bucket result' e →
         validRule a
         ∧ ∃ ent, Trigger.entity (Automation.trigger a) = Some ent
                  ∧ e ∈ toArray ent.
Proof.
  induction automations as [|x rest IH];
    intros result drawn result' drawn' Hinv Hrun; simpl in Hrun.
  - by injection Hrun as <- <-.
  - rewrite parseEntry_accepts in Hrun. destruct (accepts x) eqn:Hacc.
    + simpl in Hrun.
      destruct (V2.pushReplicas _ _ _ _ result drawn) as [[r1 d1]|] eqn:E; [| done].
      apply pushReplicas_spec in E as (_ & _ & _ & Hold).
      apply (IH r1 d1 result' drawn'); [| done]. intros e a Hin.
      apply Hold in Hin as [Hin | (k & Hk & ->)]; [by apply Hinv |].
      destruct (accepts_valid x (drawn + k) Hacc) as (Hvalid & ent & Hent & Hents).
      split; [done |]. exists ent. split; [done |].
      rewrite <- Hents. by eapply list_elem_of_lookup_2.
    + by eapply IH.
Qed.

(** X15: every rule that [parseConfig] stores has a recognised trigger
    platform, only recognised services, and only conditions with an
    entity and a recognised platform, and it is filed under an entity
    that its trigger names. *)
Theorem stored_rules_valid automations drawn rules drawn' :
  V2.parseConfig automations drawn = Ok (rules, drawn') →
  ∀ e a, a ∈ bucket rules e →
         validRule a
         ∧ ∃ ent, Trigger.entity (Automation.trigger a) = Some ent
                  ∧ e ∈ toArray ent.
Proof.
  intros Hrun. unfold V2.parseConfig in Hrun.
  eapply reduce_valid; [| done].
  intros e a Hin. rewrite bucket_empty in Hin. by apply elem_of_nil in Hin.
Qed.

Lemma pushReplicas_prefix trigger actions conditions entities :
  ∀ result drawn result' drawn',
  V2.pushReplicas trigger actions conditions entities result drawn
  = Ok (result', drawn') →
  ∀ e, bucket result e `prefix_of` bucket result' e.
Proof.
  induction entities as [|x rest IH]; intros result drawn result' drawn' Hrun e.
  - simpl in Hrun. by injection Hrun as <- <-.
  - rewrite pushReplicas_cons in Hrun.
    destruct (reads_member result x); [done |].
    apply IH with (e := e) in Hrun. etrans; [| done].
    rewrite bucket_insert. destruct (decide (e = x)) as [-> | Hne]; [| done].
    by apply prefix_app_r.
Qed.

Lemma reduce_prefix automations :
  ∀ acc acc', V2.reduce automations acc = Ok acc' →
  ∀ e, bucket acc.1 e `prefix_of` bucket acc'.1 e.
Proof.
  induction automations as [|a rest IH]; intros acc acc' Hrun e; simpl in Hrun.
  - by injection Hrun as <-.
  - rewrite parseEntry_accepts in Hrun. destruct (accepts a).
    + destruct (V2.pushReplicas _ _ _ _ acc.1 acc.2) as [[r1 d1]|] eqn:E; [| done].
      apply pushReplicas_prefix with (e := e) in E.
      apply IH with (e := e) in Hrun. by etrans.
    + by apply IH.
Qed.

(** X16: buckets only grow at their end: in every bucket the rules of
    the first entries of a configuration come first, in the order in
    which the configuration without the later entries stores them. *)
Theorem buckets_keep_insertion_order pre post drawn rules drawn' :
  V2.parseConfig (pre ++ post) drawn = Ok (rules, drawn') →
  ∃ rules0 drawn0,
    V2.parseConfig pre drawn = Ok (rules0, drawn0)
    ∧ ∀ e, bucket rules0 e `prefix_of` bucket rules e.
Proof.
  unfold V2.parseConfig. rewrite reduce_app.
  destruct (V2.reduce pre (∅, drawn)) as [[rules0 drawn0]|]; [| done].
  intros Hrun. exists rules0, drawn0. split; [done |].
  intros e. by apply (reduce_prefix post (rules0, drawn0) (rules, drawn')).
Qed.

(** *** The two variants side by side *)

Lemma V1_fires_on_match trig w actions (update from to : Update) :
  commonTrigger trig →
  V1.runAutomationIfMatches mqttBaseTopic w (V1.Automation.make trig actions)
    update from to
  = if bool_decide (V2.checkTrigger trig update from to = MATCH)
    then CallRunActions actions :: V1.runActions mqttBaseTopic w actions
    else [].
Proof.
  intros [Hp | [Hp | [Hp Hattr]]].
  - unfold V1.runAutomationIfMatches, V2.checkTrigger. simpl. rewrite Hp. simpl.
    destruct (update !! "action"); [| done]. by destruct (includes _ _).
  - unfold V1.runAutomationIfMatches, V2.checkTrigger. simpl. rewrite Hp. simpl.
    destruct (negb _ || negb _ || negb _); [done |].
    destruct (strict_eq _ _); [done |].
    unfold V2.checkAbove, V2.checkBelow.
    destruct (Trigger.above trig), (Trigger.below trig);
      repeat (match goal with
              | |- context [js_lt ?v ?n] => destruct (js_lt v n)
              | |- context [js_ge ?v ?n] => destruct (js_ge v n)
              | |- context [js_gt ?v ?n] => destruct (js_gt v n)
              | |- context [js_le ?v ?n] => destruct (js_le v n)
              end; simpl); done.
  - unfold effectiveAttribute in Hattr. rewrite Hp in Hattr.
    unfold V1.runAutomationIfMatches, V2.checkTrigger, V2.checkStateLike. simpl.
    rewrite Hp. simpl.
    change (or_default (Trigger.attribute trig) "state")
      with (or_default (Trigger.attribute trig) ConfigPlatform.STATE).
    rewrite Hattr.
    destruct (negb _ || negb _ || negb _); [done |].
    destruct (strict_eq _ _); [done |].
    destruct (update !! "state"); [| done]. by destruct (includes _ _).
Qed.

(** X17: for an action trigger, a numeric trigger and a state trigger on
    the attribute [state], the first variant runs the actions of a rule
    exactly on the events for which the matcher of the second variant
    yields MATCH. *)
Theorem first_variant_fires_on_match trig w actions (update from to : Update) :
  commonTrigger trig →
  CallRunActions actions
    ∈ V1.runAutomationIfMatches mqttBaseTopic w (V1.Automation.make trig actions)
        update from to
  ↔ V2.checkTrigger trig update from to = MATCH.
Proof.
  intros Hc. rewrite (V1_fires_on_match _ _ _ _ _ _ Hc).
  case_bool_decide as E; split.
  - done.
  - intros _. apply list_elem_of_here.
  - intros Hin. by apply elem_of_nil in Hin.
  - done.
Qed.

Lemma runActions_agree w actions :
  Forall (λ act, Action.service act ≠ ConfigService.CUSTOM) actions →
  V2.runActions mqttBaseTopic w actions = V1.runActions mqttBaseTopic w actions.
Proof.
  induction 1 as [|a actions Ha _ IH]; simpl; [done |]. rewrite IH. f_equal.
  unfold V2.runAction, V1.runAction. destruct (resolveEntity w _); [| done].
  apply String.eqb_neq in Ha. by rewrite Ha.
Qed.

Lemma runAutomationIfMatches_simulates w a (update from to : Update) st :
  commonRule a → V2.timeouts st = ∅ →
  let st' := V2.runAutomationIfMatches mqttBaseTopic w a update from to st in
  V2.trace st'
  = V2.trace st
    ++ V1.runAutomationIfMatches mqttBaseTopic w (erase a) update from to
  ∧ V2.timeouts st' = ∅ ∧ V2.timers st' = V2.timers st
  ∧ V2.automations st' = V2.automations st.
Proof.
  intros (Htrig & Hfor & Hcond & Hacts) Hidle. cbn zeta. unfold erase.
  rewrite (V1_fires_on_match _ _ _ _ _ _ Htrig). unfold V2.runAutomationIfMatches.
  destruct (V2.checkTrigger _ _ _ _) as [[|]|]; simpl.
  - rewrite Hidle, lookup_empty, Hfor, Hcond. simpl.
    by rewrite (runActions_agree _ _ Hacts).
  - unfold V2.stopTimeout. rewrite Hidle, lookup_empty. by rewrite app_nil_r.
  - by rewrite app_nil_r.
Qed.

Lemma runAll_simulates w autos (update from to : Update) :
  Forall commonRule autos →
  ∀ st, V2.timeouts st = ∅ →
  let st' := V2.runAll mqttBaseTopic w autos update from to st in
  V2.trace st'
  = V2.trace st ++ V1.runAll mqttBaseTopic w (erase <$> autos) update from to
  ∧ V2.timeouts st' = ∅ ∧ V2.timers st' = V2.timers st
  ∧ V2.automations st' = V2.automations st.
Proof.
  cbn zeta. induction 1 as [|a autos Ha _ IH]; intros st Hidle; simpl.
  - by rewrite app_nil_r.
  - destruct (runAutomationIfMatches_simulates w a update from to st Ha Hidle)
      as (Ht & Hto & Hti & Hau).
    destruct (IH _ Hto) as (Ht' & Hto' & Hti' & Hau').
    rewrite Ht', Ht, app_assoc. repeat split; congruence.
Qed.

(** X18: on a store of rules without delay, conditions or custom
    services, and with triggers that both variants read alike, one call of
    [findAndRun] of the second variant records exactly the events that the
    first variant produces on the same store, starts no timer, and throws
    exactly when the first variant does. *)
Theorem findAndRun_simulates rules w e (update from to : Update) st :
  (∀ e a, a ∈ bucket rules e → commonRule a) →
  V2.automations st = rules → V2.timeouts st = ∅ →
  match V2.findAndRun mqttBaseTopic w e update from to st,
        V1.findAndRun mqttBaseTopic (eraseStore rules) w e update from to with
  | Ok st', Ok events =>
      V2.trace st' = V2.trace st ++ events
      ∧ V2.timeouts st' = ∅ ∧ V2.timers st' = V2.timers st
      ∧ V2.automations st' = rules
  | Throw e2, Throw e1 => e2 = e1
  | _, _ => False
  end.
Proof.
  intros Hcommon Hrules Hidle. unfold V2.findAndRun, V1.findAndRun, eraseStore.
  rewrite Hrules, lookup_fmap.
  destruct (rules !! e) as [autos|] eqn:E; simpl.
  - assert (Forall commonRule autos) as Hall.
    { apply Forall_forall. intros a Hin. apply (Hcommon e). unfold bucket.
      by rewrite E. }
    destruct (runAll_simulates w autos update from to Hall st Hidle)
      as (Ht & Hto & Hti & Hau).
    repeat split; congruence.
  - destruct (inherited e); [done |]. by rewrite app_nil_r.
Qed.

Lemma eraseStore_insert (rules : gmap string (list Automation.t)) x l :
  eraseStore (<[x := l]> rules) = <[x := erase <$> l]> (eraseStore rules).
Proof. unfold eraseStore. by rewrite fmap_insert. Qed.

Lemma pushReplicas_erase trigger actions conditions entities :
  ∀ result drawn,
  match V2.pushReplicas trigger actions conditions entities result drawn with
  | Ok (result', _) =>
      V1.pushReplicas trigger actions entities (eraseStore result)
      = Ok (eraseStore result')
  | Throw e => V1.pushReplicas trigger actions entities (eraseStore result) = Throw e
  end.
Proof.
  induction entities as [|x rest IH]; intros result drawn; simpl; [done |].
  assert (eraseStore result !! x = fmap (M := option) (fmap erase) (result !! x))
    as Hl by (unfold eraseStore; apply lookup_fmap).
  rewrite !Hl. destruct (result !! x) as [l|] eqn:E; simpl.
  - specialize (IH (<[x := l ++ [Automation.make drawn trigger actions conditions]]>
                      result) (S drawn)).
    rewrite eraseStore_insert, fmap_app in IH. exact IH.
  - destruct (inherited x); [done |].
    specialize (IH (<[x := [Automation.make drawn trigger actions conditions]]>
                      result) (S drawn)).
    rewrite eraseStore_insert in IH. exact IH.
Qed.

Lemma common_platform p :
  p ≠ ConfigPlatform.STATE_L1 → p ≠ ConfigPlatform.STATE_L2 →
  includes ConfigPlatform.values_v1 p = includes ConfigPlatform.values p.
Proof.
  intros H1 H2. unfold includes. apply bool_decide_ext.
  unfold ConfigPlatform.values_v1, ConfigPlatform.values.
  rewrite !elem_of_cons, !elem_of_nil. tauto.
Qed.

Lemma common_actions actions :
  Forall (λ a, Action.service a ≠ ConfigService.CUSTOM) actions →
  forallb V1.validAction actions = forallb V2.validAction actions.
Proof.
  induction 1 as [|a actions Ha _ IH]; simpl; [done |]. rewrite IH. f_equal.
  unfold V1.validAction, V2.validAction, includes. apply bool_decide_ext.
  unfold ConfigService.values_v1, ConfigService.values.
  rewrite !elem_of_cons, !elem_of_nil. tauto.
Qed.

Lemma reduce_erase automations :
  Forall commonEntry automations →
  ∀ result drawn,
  match V2.reduce automations (result, drawn) with
  | Ok (result', _) => V1.reduce automations (eraseStore result) = Ok (eraseStore result')
  | Throw e => V1.reduce automations (eraseStore result) = Throw e
  end.
Proof.
  induction 1 as [|a rest (Hl1 & Hl2 & Hacts & Hcond) _ IH]; intros result drawn;
    simpl; [done |].
  unfold V2.parseEntry, V1.parseEntry.
  rewrite (common_platform _ Hl1 Hl2), (common_actions _ Hacts), Hcond. simpl.
  destruct (includes ConfigPlatform.values _); simpl; [| apply IH].
  destruct (truthy_entity _); simpl; [| apply IH].
  destruct (forallb V2.validAction _); simpl; [| apply IH].
  pose proof (pushReplicas_erase (ConfigAutomation.trigger a)
                (toArray (ConfigAutomation.action a)) []
                (match Trigger.entity (ConfigAutomation.trigger a) with
                 | Some e => toArray e
                 | None => []
                 end) result drawn) as Hpush.
  destruct (V2.pushReplicas _ _ _ _ result drawn) as [[r1 d1]|]; rewrite Hpush.
  - apply IH.
  - done.
Qed.

(** X19: on a configuration that stays within the language of the first
    variant (no alternate state channel, no custom service, no condition)
    both variants of [parseConfig] load the same rules in the same buckets
    and order, the second adding only identifiers, and one throws exactly
    when the other does. *)
Theorem parseConfig_variants_agree automations drawn :
  Forall commonEntry automations →
  match V2.parseConfig automations drawn with
  | Ok (rules, _) => V1.parseConfig automations = Ok (eraseStore rules)
  | Throw e => V1.parseConfig automations = Throw e
  end.
Proof.
  intros Hall. unfold V2.parseConfig, V1.parseConfig.
  pose proof (reduce_erase automations Hall ∅ drawn) as Hred.
  unfold eraseStore at 1 in Hred. by rewrite fmap_empty in Hred.
Qed.

(** *** Crossings and inherited names *)

(** X20: on numbers, a numeric trigger with only [above] yields MATCH
    exactly when the value rises from below the threshold to the threshold
    or beyond, and one with only [below] exactly when the value falls from
    above the threshold to the threshold or beneath. *)
Theorem numeric_crossing trig attr (update from to : Update) u f t :
  Trigger.platform trig = ConfigPlatform.NUMERIC_STATE →
  Trigger.attribute trig = Some attr →
  update !! attr = Some u → from !! attr = Some (VNum f) → to !! attr = Some (VNum t) →
  (∀ a, Trigger.above trig = Some a → Trigger.below trig = None →
        (V2.checkTrigger trig update from to = MATCH ↔ f < a ∧ a ≤ t))
  ∧ (∀ b, Trigger.above trig = None → Trigger.below trig = Some b →
          (V2.checkTrigger trig update from to = MATCH ↔ b < f ∧ t ≤ b)).
Proof.
  intros Hp Ha Hu Hf Ht. destruct (decide (f = t)) as [-> | Hne].
  - assert (V2.checkTrigger trig update from to = NO_MATCH) as ->.
    { unfold V2.checkTrigger. rewrite Hp, Ha. simpl.
      destruct (negb _ || negb _ || negb _); [done |].
      by rewrite Hf, Ht, (proj2 (strict_eq_true _ _) eq_refl). }
    split; intros ? _ _; (split; [done | lia]).
  - rewrite (checkTrigger_numeric trig attr update from to u (VNum f) (VNum t))
      by (done || congruence).
    unfold V2.checkAbove, V2.checkBelow, js_lt, js_ge, js_gt, js_le. simpl.
    split.
    + intros a -> ->. destruct (Z.ltb_spec t a); [split; [done | lia] |].
      destruct (Z.leb_spec a f); [split; [done | lia] |]. split; [lia | done].
    + intros b -> ->. destruct (Z.ltb_spec b t); [split; [done | lia] |].
      destruct (Z.leb_spec f b); [split; [done | lia] |]. split; [lia | done].
Qed.

Lemma pushReplicas_no_inherited trigger actions conditions entities :
  ∀ result drawn result' drawn',
  (∀ e, inherited e = true → result !! e = None) →
  V2.pushReplicas trigger actions conditions entities result drawn
  = Ok (result', drawn') →
  ∀ e, inherited e = true → result' !! e = None.
Proof.
  induction entities as [|x rest IH]; intros result drawn result' drawn' Hinv Hrun.
  - simpl in Hrun. by injection Hrun as <- <-.
  - rewrite pushReplicas_cons in Hrun. unfold reads_member in Hrun.
    destruct (inherited x) eqn:Hx.
    + rewrite (Hinv x Hx) in Hrun. by rewrite bool_decide_eq_true_2 in Hrun.
    + rewrite andb_false_r in Hrun. eapply IH; [| done].
      intros e He. rewrite lookup_insert_ne; [by apply Hinv | congruence].
Qed.

Lemma reduce_no_inherited automations :
  ∀ result drawn result' drawn',
  (∀ e, inherited e = true → result !! e = None) →
  V2.reduce automations (result, drawn) = Ok (result', drawn') →
  ∀ e, inherited e = true → result' !! e = None.
Proof.
  induction automations as [|a rest IH];
    intros result drawn result' drawn' Hinv Hrun; simpl in Hrun.
  - by injection Hrun as <- <-.
  - rewrite parseEntry_accepts in Hrun. destruct (accepts a).
    + simpl in Hrun.
      destruct (V2.pushReplicas _ _ _ _ result drawn) as [[r1 d1]|] eqn:E; [| done].
      apply (IH r1 d1 result' drawn'); [| done].
      by eapply pushReplicas_no_inherited.
    + by apply (IH result drawn result' drawn').
Qed.

(** X21: a store that [parseConfig] returned has no bucket under a name
    that plain objects inherit, so a state change of an entity with such a
    name makes [findAndRun] throw whatever the configuration is; the
    listener then leaves the extension as it was. *)
Theorem inherited_name_event_throws automations drawn rules drawn' e :
  V2.parseConfig automations drawn = Ok (rules, drawn') →
  inherited e = true →
  rules !! e = None
  ∧ ∀ w (update from to : Update) st,
      V2.automations st = rules →
      V2.findAndRun mqttBaseTopic w e update from to st
      = Throw "TypeError: automations is not iterable"
      ∧ V2.step mqttBaseTopic st (V2.StateChange w e update from to) = st.
Proof.
  intros Hrun He.
  assert (rules !! e = None) as Hnone.
  { unfold V2.parseConfig in Hrun. eapply reduce_no_inherited; [| done | done].
    intros e' _. apply lookup_empty. }
  split; [done |]. intros w update from to st Hst.
  assert (V2.listener mqttBaseTopic w e update from to st = st) as Hl.
  { unfold V2.listener, V2.findAndRun. by rewrite Hst, Hnone, He. }
  split.
  - unfold V2.findAndRun. by rewrite Hst, Hnone, He.
  - simpl. generalize (V2.listeners st). intros n.
    induction n as [|n IH]; simpl; [done |]. by rewrite IH.
Qed.

End Behaviour.

(** *** The statements at sample inputs *)

#[local] Existing Instance decimalToNumber.

Example decimalToNumber_samples :
  decimalToNumber "-12" = Some (-12) ∧ decimalToNumber "35" = Some 35
  ∧ decimalToNumber "ON" = None ∧ decimalToNumber "" = Some 0.
Proof. repeat split. Qed.

(** Scenarios A and B of the specification, end to end: the rule fires
    at once and publishes ON to a target that is OFF, and nothing to a
    target that is ON. *)
Example scenario_A_and_B :
  let run stateOfY :=
    V2.trace
      (V2.run "zigbee2mqtt" (sampleState (sampleStateTrigger None))
         [V2.Start;
          V2.StateChange (sampleWorld stateOfY) "X"
            (stateOf "ON") (stateOf "OFF") (stateOf "ON")]) in
  run "OFF" = [CallRunActions [turnOnY];
               Publish "zigbee2mqtt/Y/set" (DataState (Some (VStr "ON")))]
  ∧ run "ON" = [CallRunActions [turnOnY]].
Proof. vm_compute. split; reflexivity. Qed.


(** A rule with [for: 10] has matched and the extension is stopped: the
    timer is still live, and its expiry runs the actions. *)
Lemma stop_leaves_timer_pending :
  let w := sampleWorld "OFF" in
  let st :=
    V2.run (coercion := decimalToNumber) "zigbee2mqtt"
      (sampleState (sampleStateTrigger (Some 10)))
      [V2.Start; V2.StateChange w "X" (stateOf "ON") (stateOf "OFF") (stateOf "ON");
       V2.Stop] in
  V2.listeners st = 0%nat
  ∧ V2.timeouts st !! 0%nat = Some 0%nat
  ∧ is_Some (V2.timers st !! 0%nat)
  ∧ V2.trace st = []
  ∧ V2.trace (V2.step "zigbee2mqtt" st (V2.TimerExpiry w 0%nat))
    = [CallRunActions [turnOnY];
       Publish "zigbee2mqtt/Y/set" (DataState (Some (VStr "ON")))].
Proof. vm_compute. repeat split. by eexists. Qed.

(** One entry naming two entities: its two replicas carry the
    identifiers of two draws. *)
Lemma replicas_of_one_entry_differ_in_id :
  let automation := sampleEntry (Many ["X"; "Y"]) "turn_on" in
  V2.parseConfig [automation] 0
  = Ok ({[ "X" := [replicaOf automation 0]; "Y" := [replicaOf automation 1] ]}, 2%nat)
  ∧ Automation.id (replicaOf automation 0) ≠ Automation.id (replicaOf automation 1).
Proof. split; [vm_compute; reflexivity | simpl; lia]. Qed.

(** C9, where the code departs from it: an entry that passes every check
    but names the entity ["constructor"] makes [parseConfig] throw, in
    both variants, although a sibling entry is valid. *)
Theorem parseConfig_throws_on_inherited_entity_name :
  accepts (sampleEntry (One "constructor") "turn_on") = true
  ∧ V2.parseConfig
      [sampleEntry (One "X") "turn_on"; sampleEntry (One "constructor") "turn_on"] 0
    = Throw "TypeError: result[entityId].push is not a function"
  ∧ V1.parseConfig
      [sampleEntry (One "X") "turn_on"; sampleEntry (One "constructor") "turn_on"]
    = Throw "TypeError: result[entityId].push is not a function".
Proof. vm_compute. repeat split. Qed.

(** Scenario A of the specification: OFF to ON on a trigger that accepts ON. *)
Lemma state_trigger_match_iff_witness :
  V2.checkTrigger (sampleStateTrigger None)
    (stateOf "ON") (stateOf "OFF") (stateOf "ON") = MATCH.
Proof.
  destruct (state_trigger_match_iff "zigbee2mqtt" (sampleStateTrigger None)
              (stateOf "ON") (stateOf "OFF") (stateOf "ON")
              (VStr "ON") (VStr "OFF") (VStr "ON")) as (_ & Hiff & _).
  - left. reflexivity.
  - reflexivity.
  - reflexivity.
  - reflexivity.
  - apply Hiff; [discriminate |]. apply list_elem_of_here.
Defined.

(** ON to OFF on a trigger that accepts ON only. *)
Lemma state_trigger_negative_edge_witness :
  V2.checkTrigger (sampleStateTrigger (Some 10))
    (stateOf "OFF") (stateOf "ON") (stateOf "OFF") = NEGATIVE_EDGE.
Proof.
  apply (state_trigger_negative_edge "zigbee2mqtt" (sampleStateTrigger (Some 10))
           (stateOf "OFF") (stateOf "ON") (stateOf "OFF")
           (VStr "OFF") (VStr "ON") (VStr "OFF")).
  - left. reflexivity.
  - reflexivity.
  - reflexivity.
  - reflexivity.
  - discriminate.
  - intros Hin. apply list_elem_of_singleton in Hin. discriminate.
Defined.

(** An accepted action. *)
Lemma action_trigger_result_witness :
  V2.checkTrigger (sampleActionTrigger None) (actionOf "hold") ∅ ∅ = MATCH.
Proof.
  destruct (action_trigger_result "zigbee2mqtt" (sampleActionTrigger None)
              (actionOf "hold") ∅ ∅) as (Hiff & _).
  - reflexivity.
  - apply Hiff. exists (VStr "hold"). split; [reflexivity | apply list_elem_of_here].
Defined.

(** Scenario C of the specification, [above: 30]: 25 to 35 matches, 35
    to 32 does not, and 35 to 25 is a negative edge. *)
Lemma numeric_single_threshold_witness :
  V2.checkTrigger (sampleNumericTrigger (Some 30) None)
    (temperatureOf 35) (temperatureOf 25) (temperatureOf 35) = MATCH
  ∧ V2.checkTrigger (sampleNumericTrigger (Some 30) None)
      (temperatureOf 32) (temperatureOf 35) (temperatureOf 32) = NO_MATCH
  ∧ V2.checkTrigger (sampleNumericTrigger (Some 30) None)
      (temperatureOf 25) (temperatureOf 35) (temperatureOf 25) = NEGATIVE_EDGE.
Proof.
  split; [| split].
  - destruct (numeric_single_threshold "zigbee2mqtt"
                (sampleNumericTrigger (Some 30) None) "temperature"
                (temperatureOf 35) (temperatureOf 25) (temperatureOf 35)
                (VNum 35) (VNum 25) (VNum 35)) as (Habove & _);
      [reflexivity | reflexivity | reflexivity | reflexivity | reflexivity
      | discriminate |].
    rewrite (Habove 30 eq_refl eq_refl). reflexivity.
  - destruct (numeric_single_threshold "zigbee2mqtt"
                (sampleNumericTrigger (Some 30) None) "temperature"
                (temperatureOf 32) (temperatureOf 35) (temperatureOf 32)
                (VNum 32) (VNum 35) (VNum 32)) as (Habove & _);
      [reflexivity | reflexivity | reflexivity | reflexivity | reflexivity
      | discriminate |].
    rewrite (Habove 30 eq_refl eq_refl). reflexivity.
  - destruct (numeric_single_threshold "zigbee2mqtt"
                (sampleNumericTrigger (Some 30) None) "temperature"
                (temperatureOf 25) (temperatureOf 35) (temperatureOf 25)
                (VNum 25) (VNum 35) (VNum 25)) as (Habove & _);
      [reflexivity | reflexivity | reflexivity | reflexivity | reflexivity
      | discriminate |].
    rewrite (Habove 30 eq_refl eq_refl). reflexivity.
Defined.

(** Scenario B of the specification: [turn_on] on a target that is ON. *)
Lemma redundant_action_not_published_witness :
  V2.runActions "zigbee2mqtt" (sampleWorld "ON") [turnOnY] = []
  ∧ V1.runActions "zigbee2mqtt" (sampleWorld "ON") [turnOnY] = [].
Proof.
  apply (redundant_action_not_published "zigbee2mqtt" (sampleWorld "ON") turnOnY
           {| name := "Y" |}).
  - discriminate.
  - reflexivity.
  - reflexivity.
  - reflexivity.
Defined.

(** A condition on an entity the host does not know. *)
Lemma conditions_fail_open_conjunctive_witness :
  V2.checkCondition (sampleWorld "ON")
    (Condition.make "state" "Z" None (Some (VStr "ON")) None None) = true.
Proof.
  apply (conditions_fail_open_conjunctive "zigbee2mqtt" (sampleWorld "ON")).
  reflexivity.
Defined.

(** A second MATCH while the timer of the rule is pending. *)
Lemma pending_timer_invariant_witness :
  V2.runAutomationIfMatches "zigbee2mqtt" (sampleWorld "OFF")
    (sampleAutomation 0 (sampleStateTrigger (Some 10)))
    (stateOf "ON") (stateOf "OFF") (stateOf "ON") pendingState
  = pendingState.
Proof.
  destruct (pending_timer_invariant "zigbee2mqtt") as (_ & _ & _ & Hpending & _).
  apply (Hpending _ _ _ _ _ _ 0%nat); reflexivity.
Defined.

(** The pending timer of the sample rule expires after [stop]. *)
Lemma stop_only_unsubscribes_witness :
  V2.trace (V2.step "zigbee2mqtt" (V2.stop pendingState)
              (V2.TimerExpiry (sampleWorld "OFF") 0%nat))
  = V2.trace pendingState
    ++ V2.runActionsWithConditions "zigbee2mqtt" (sampleWorld "OFF") [] [turnOnY].
Proof.
  destruct (stop_only_unsubscribes "zigbee2mqtt" pendingState)
    as (_ & _ & _ & _ & Hexpiry).
  apply (Hexpiry (sampleWorld "OFF") 0%nat
           {| V2.timer_automation := sampleAutomation 0 (sampleStateTrigger (Some 10));
              V2.timer_delay := 10000 |}).
  reflexivity.
Defined.

(** The replica of the second entity carries the second identifier. *)
Lemma replica_ids_fresh_per_entity_witness :
  replicaOf (sampleEntry (Many ["X"; "Y"]) "turn_on") 1
  ∈ bucket {[ "X" := [replicaOf (sampleEntry (Many ["X"; "Y"]) "turn_on") 0];
              "Y" := [replicaOf (sampleEntry (Many ["X"; "Y"]) "turn_on") 1] ]} "Y".
Proof.
  destruct (replica_ids_fresh_per_entity (sampleEntry (Many ["X"; "Y"]) "turn_on")
              ∅ 0%nat
              {[ "X" := [replicaOf (sampleEntry (Many ["X"; "Y"]) "turn_on") 0];
                 "Y" := [replicaOf (sampleEntry (Many ["X"; "Y"]) "turn_on") 1] ]}
              2%nat) as (_ & Hnew & _).
  - reflexivity.
  - vm_compute. reflexivity.
  - apply (Hnew 1%nat "Y"). reflexivity.
Defined.

(** A rule on the action [hold] with [for: 2] has matched; an update
    with the action [release] yields NEGATIVE_EDGE and clears its timer. *)
Lemma action_trigger_yields_negative_edge :
  let trig := sampleActionTrigger (Some 2) in
  let w := sampleWorld "OFF" in
  let st :=
    V2.run "zigbee2mqtt" (sampleState trig)
      [V2.Start; V2.StateChange w "X" (actionOf "hold") ∅ ∅] in
  let st' := V2.step "zigbee2mqtt" st (V2.StateChange w "X" (actionOf "release") ∅ ∅) in
  Trigger.platform trig = ConfigPlatform.ACTION
  ∧ V2.checkTrigger trig (actionOf "release") ∅ ∅ = NEGATIVE_EDGE
  ∧ V2.timeouts st !! 0%nat = Some 0%nat
  ∧ is_Some (V2.timers st !! 0%nat)
  ∧ V2.timeouts st' !! 0%nat = None
  ∧ V2.timers st' !! 0%nat = None.
Proof. vm_compute. repeat split. by eexists. Qed.

(** *** The further properties at sample inputs *)

Lemma sampleRules_bucket e a :
  a ∈ bucket sampleRules e → a = sampleAutomation 0 (sampleStateTrigger None).
Proof.
  unfold bucket, sampleRules. destruct (decide (e = "X")) as [-> | Hne].
  - rewrite lookup_singleton_eq. simpl. by intros ->%list_elem_of_singleton.
  - rewrite lookup_singleton_ne by done. simpl. by intros ?%elem_of_nil.
Qed.

(** An update without the watched attribute. *)
Lemma missing_attribute_no_match_witness :
  V2.checkTrigger (sampleStateTrigger None) ∅ (stateOf "OFF") (stateOf "ON")
  = NO_MATCH.
Proof.
  apply (missing_attribute_no_match "zigbee2mqtt" (sampleStateTrigger None)
           ∅ (stateOf "OFF") (stateOf "ON")).
  - left. left. reflexivity.
  - left. reflexivity.
Defined.

(** A temperature that enters the range 20 to 30 from below. *)
Lemma numeric_range_never_matches_witness :
  V2.checkTrigger (sampleNumericTrigger (Some 20) (Some 30))
    (temperatureOf 25) (temperatureOf 15) (temperatureOf 25) ≠ MATCH.
Proof.
  apply (numeric_range_never_matches "zigbee2mqtt"
           (sampleNumericTrigger (Some 20) (Some 30)) 20 30
           (temperatureOf 25) (temperatureOf 15) (temperatureOf 25) 15 25);
    reflexivity.
Defined.

(** A reading of 25 under the bounds 20 and 30. *)
Lemma numeric_condition_bounds_witness :
  V2.checkCondition (sampleClimate 25)
    (Condition.make "numeric_state" "T" (Some "temperature") None (Some 20) (Some 30))
  = true.
Proof.
  destruct (numeric_condition_bounds (sampleClimate 25)
              (Condition.make "numeric_state" "T" (Some "temperature") None
                 (Some 20) (Some 30))
              {| name := "T" |}) as [Hbounds _].
  - reflexivity.
  - reflexivity.
  - apply (Hbounds 25); [reflexivity |]. split; intros ? [= <-]; lia.
Defined.

(** A condition that expects ON on a target that is ON. *)
Lemma state_condition_equality_witness :
  V2.checkCondition (sampleWorld "ON")
    (Condition.make "state" "Y" None (Some (VStr "ON")) None None) = true.
Proof.
  apply (state_condition_equality (sampleWorld "ON")
           (Condition.make "state" "Y" None (Some (VStr "ON")) None None)
           {| name := "Y" |}).
  - left. reflexivity.
  - reflexivity.
  - reflexivity.
  - reflexivity.
Defined.

(** [toggle] on a target that is ON. *)
Lemma toggle_always_publishes_witness :
  V2.runAction "zigbee2mqtt" (sampleWorld "ON") toggleY
  = [Publish "zigbee2mqtt/Y/set" (DataState (Some (VStr "OFF")))].
Proof.
  exact (proj1 (toggle_always_publishes "zigbee2mqtt" (sampleWorld "ON") toggleY
                  {| name := "Y" |} eq_refl eq_refl)).
Defined.

(** [turn_on] on a target that is OFF. *)
Lemma switch_publishes_on_change_witness :
  V2.runAction "zigbee2mqtt" (sampleWorld "OFF") turnOnY
  = [Publish "zigbee2mqtt/Y/set" (DataState (Some (VStr "ON")))].
Proof.
  exact (proj1 (switch_publishes_on_change "zigbee2mqtt" (sampleWorld "OFF") turnOnY
                  {| name := "Y" |} "ON" (or_introl (conj eq_refl eq_refl)) eq_refl)).
Defined.

(** An action on an unknown entity between two others. *)
Lemma runActions_one_by_one_witness :
  V2.runActions "zigbee2mqtt" (sampleWorld "OFF") ([turnOnY] ++ turnOnZ :: [toggleY])
  = V2.runActions "zigbee2mqtt" (sampleWorld "OFF") ([turnOnY] ++ [toggleY]).
Proof.
  destruct (runActions_one_by_one "zigbee2mqtt" (sampleWorld "OFF")) as (Hskip & _).
  apply Hskip. reflexivity.
Defined.


(** The sample rule matches and the state then leaves ON. *)
Lemma match_then_negative_edge_witness :
  V2.timers
    (V2.runAutomationIfMatches "zigbee2mqtt" (sampleWorld "OFF")
       (sampleAutomation 0 (sampleStateTrigger (Some 10)))
       (stateOf "OFF") (stateOf "ON") (stateOf "OFF")
       (V2.runAutomationIfMatches "zigbee2mqtt" (sampleWorld "OFF")
          (sampleAutomation 0 (sampleStateTrigger (Some 10)))
          (stateOf "ON") (stateOf "OFF") (stateOf "ON")
          (sampleState (sampleStateTrigger (Some 10)))))
  = V2.timers (sampleState (sampleStateTrigger (Some 10))).
Proof.
  destruct (match_then_negative_edge "zigbee2mqtt" (sampleWorld "OFF") (sampleWorld "OFF")
              (sampleAutomation 0 (sampleStateTrigger (Some 10)))
              (stateOf "ON") (stateOf "OFF") (stateOf "ON")
              (stateOf "OFF") (stateOf "ON") (stateOf "OFF")
              (sampleState (sampleStateTrigger (Some 10))) 10)
    as (_ & Htimers & _).
  - apply consistent_loaded.
  - reflexivity.
  - reflexivity.
  - reflexivity.
  - reflexivity.
  - lia.
  - exact Htimers.
Defined.


(** A store whose only rule has no [for]. *)
Lemma no_delay_no_timer_witness :
  V2.timers
    (V2.run "zigbee2mqtt" (V2.loaded sampleRules)
       [V2.Start;
        V2.StateChange (sampleWorld "OFF") "X"
          (stateOf "ON") (stateOf "OFF") (stateOf "ON")])
  = ∅.
Proof.
  apply (no_delay_no_timer "zigbee2mqtt" sampleRules).
  intros e a Hin. apply sampleRules_bucket in Hin as ->. reflexivity.
Defined.

(** An entry with the platform [sunrise] after a valid entry. *)
Lemma rejected_entry_dropped_witness :
  V2.parseConfig ([sampleEntry (One "X") "turn_on"] ++ unknownPlatformEntry :: []) 0
  = V2.parseConfig ([sampleEntry (One "X") "turn_on"] ++ []) 0.
Proof.
  apply (rejected_entry_dropped [sampleEntry (One "X") "turn_on"]
           unknownPlatformEntry [] 0%nat).
  left. apply includes_false. reflexivity.
Defined.

(** The two replicas of an entry that names two entities. *)
Lemma rule_ids_unique_witness :
  (0 ≤ 2)%nat ∧ idsFresh twoEntityRules 0 2.
Proof.
  apply (rule_ids_unique [sampleEntry (Many ["X"; "Y"]) "turn_on"] 0%nat
           twoEntityRules 2%nat).
  vm_compute. reflexivity.
Defined.

(** The replica filed under the second entity. *)
Lemma stored_rules_valid_witness :
  validRule (replicaOf (sampleEntry (Many ["X"; "Y"]) "turn_on") 1)
  ∧ ∃ ent,
      Trigger.entity
        (Automation.trigger (replicaOf (sampleEntry (Many ["X"; "Y"]) "turn_on") 1))
      = Some ent
      ∧ "Y" ∈ toArray ent.
Proof.
  apply (stored_rules_valid [sampleEntry (Many ["X"; "Y"]) "turn_on"] 0%nat
           twoEntityRules 2%nat).
  - vm_compute. reflexivity.
  - apply list_elem_of_here.
Defined.

(** Two entries on the same entity. *)
Lemma buckets_keep_insertion_order_witness :
  ∃ rules0 drawn0,
    V2.parseConfig [sampleEntry (One "X") "turn_on"] 0 = Ok (rules0, drawn0)
    ∧ ∀ e, bucket rules0 e
           `prefix_of`
           bucket {[ "X" := [replicaOf (sampleEntry (One "X") "turn_on") 0;
                             replicaOf (sampleEntry (One "X") "toggle") 1] ]} e.
Proof.
  apply (buckets_keep_insertion_order [sampleEntry (One "X") "turn_on"]
           [sampleEntry (One "X") "toggle"] 0%nat _ 2%nat).
  vm_compute. reflexivity.
Defined.

(** An action trigger on an accepted action. *)
Lemma first_variant_fires_on_match_witness :
  CallRunActions [turnOnY]
    ∈ V1.runAutomationIfMatches "zigbee2mqtt" (sampleWorld "OFF")
        (V1.Automation.make (sampleActionTrigger None) [turnOnY])
        (actionOf "hold") ∅ ∅
  ↔ V2.checkTrigger (sampleActionTrigger None) (actionOf "hold") ∅ ∅ = MATCH.
Proof.
  apply (first_variant_fires_on_match "zigbee2mqtt" (sampleActionTrigger None)).
  left. reflexivity.
Defined.

(** One event on the sample store in both variants. *)
Lemma findAndRun_simulates_witness :
  match V2.findAndRun "zigbee2mqtt" (sampleWorld "OFF") "X"
          (stateOf "ON") (stateOf "OFF") (stateOf "ON") (V2.loaded sampleRules),
        V1.findAndRun "zigbee2mqtt" (eraseStore sampleRules) (sampleWorld "OFF") "X"
          (stateOf "ON") (stateOf "OFF") (stateOf "ON") with
  | Ok st', Ok events =>
      V2.trace st' = V2.trace (V2.loaded sampleRules) ++ events
      ∧ V2.timeouts st' = ∅ ∧ V2.timers st' = V2.timers (V2.loaded sampleRules)
      ∧ V2.automations st' = sampleRules
  | Throw e2, Throw e1 => e2 = e1
  | _, _ => False
  end.
Proof.
  apply (findAndRun_simulates "zigbee2mqtt" sampleRules (sampleWorld "OFF") "X"
           (stateOf "ON") (stateOf "OFF") (stateOf "ON") (V2.loaded sampleRules)).
  - intros e a Hin. apply sampleRules_bucket in Hin as ->.
    split; [right; right; split; reflexivity |].
    split; [reflexivity |]. split; [reflexivity |].
    constructor; [discriminate | constructor].
  - reflexivity.
  - reflexivity.
Defined.

(** A configuration both variants understand. *)
Lemma parseConfig_variants_agree_witness :
  match V2.parseConfig [sampleEntry (Many ["X"; "Y"]) "turn_on"] 0 with
  | Ok (rules, _) =>
      V1.parseConfig [sampleEntry (Many ["X"; "Y"]) "turn_on"] = Ok (eraseStore rules)
  | Throw e => V1.parseConfig [sampleEntry (Many ["X"; "Y"]) "turn_on"] = Throw e
  end.
Proof.
  apply (parseConfig_variants_agree [sampleEntry (Many ["X"; "Y"]) "turn_on"] 0%nat).
  constructor; [| constructor].
  split; [discriminate |]. split; [discriminate |]. split; [| reflexivity].
  constructor; [discriminate | constructor].
Defined.

(** Scenario C of the specification: 25 to 35 crosses [above: 30]. *)
Lemma numeric_crossing_witness :
  V2.checkTrigger (sampleNumericTrigger (Some 30) None)
    (temperatureOf 35) (temperatureOf 25) (temperatureOf 35) = MATCH
  ↔ 25 < 30 ∧ 30 ≤ 35.
Proof.
  destruct (numeric_crossing (sampleNumericTrigger (Some 30) None) "temperature"
              (temperatureOf 35) (temperatureOf 25) (temperatureOf 35)
              (VNum 35) 25 35) as [Habove _];
    [reflexivity | reflexivity | reflexivity | reflexivity | reflexivity |].
  apply (Habove 30); reflexivity.
Defined.

(** A state change of an entity named [toString] on the sample store. *)
Lemma inherited_name_event_throws_witness :
  V2.findAndRun "zigbee2mqtt" (sampleWorld "OFF") "toString"
    (stateOf "ON") (stateOf "OFF") (stateOf "ON") (V2.loaded twoEntityRules)
  = Throw "TypeError: automations is not iterable".
Proof.
  destruct (inherited_name_event_throws "zigbee2mqtt"
              [sampleEntry (Many ["X"; "Y"]) "turn_on"] 0%nat twoEntityRules 2%nat
              "toString") as [_ Hthrows].
  - vm_compute. reflexivity.
  - reflexivity.
  - apply (Hthrows (sampleWorld "OFF") (stateOf "ON") (stateOf "OFF") (stateOf "ON")
             (V2.loaded twoEntityRules)).
    reflexivity.
Defined.
